(** * Contract clause analysis: a shallow embedding and its properties

    This development embeds the clause-extraction and analysis pipeline of
    the contract review system:

    - [extractors/document_parser.py]   ([StructureAnalyzer],
                                         [ClauseIdentifier])
    - [extractors/clause_extractor.py]  ([ClauseExtractor])
    - [analyzers/conflict_detector.py]  ([ConflictDetector])
    - [analyzers/ambiguity_detector.py] ([AmbiguityDetector])
    - [qa_system/question_answering.py] ([QuestionAnsweringSystem])

    Conventions.
    - Python [str] values are [string]s over [ascii]; the character classes
      ([isspace], [isalnum], [lower], the regular-expression classes) are
      those of Python on code points below 128.
    - Heuristic scores built from decimal constants ([0.7], [0.15], ...) are
      rationals ([Q]); similarities, which need a square root, are reals
      ([R]).  Rounding is left out of these; [Binary64] repeats the cosine
      computation on binary64 numbers to show what rounding adds.
    - The ORM session is a record of tables; queries are list filters, and
      the one LIKE query follows the database ([Sqlite]). *)

From Stdlib Require Import Bool Arith List Ascii String ZArith QArith Qminmax Qround Lia.
From Stdlib Require Import Reals Lra Psatz Permutation Sorting.Sorted DecimalString.
From Stdlib Require PrimFloat.
Import ListNotations.

Open Scope string_scope.

(* ================================================================== *)
(** ** Python string primitives *)
(* ================================================================== *)

Module PyStr.

Definition code (c : ascii) : nat := nat_of_ascii c.

Definition in_range (lo hi : nat) (c : ascii) : bool :=
  (lo <=? code c)%nat && (code c <=? hi)%nat.

(** [str.isspace] / regex [\s]: TAB..CR, FS..US and the space. *)
Definition isspace (c : ascii) : bool :=
  in_range 9 13 c || in_range 28 32 c.

Definition isdigit (c : ascii) : bool := in_range 48 57 c.
Definition isupper (c : ascii) : bool := in_range 65 90 c.
Definition islower (c : ascii) : bool := in_range 97 122 c.
Definition isalnum (c : ascii) : bool := isdigit c || isupper c || islower c.

Definition lower_char (c : ascii) : ascii :=
  if isupper c then ascii_of_nat (code c + 32) else c.

(** [s.lower()] *)
Fixpoint lower (s : string) : string :=
  match s with
  | EmptyString => EmptyString
  | String c s' => String (lower_char c) (lower s')
  end.

(** [s.startswith(p)] *)
Fixpoint startswith (s p : string) : bool :=
  match p, s with
  | EmptyString, _ => true
  | String _ _, EmptyString => false
  | String a p', String b s' => Ascii.eqb a b && startswith s' p'
  end.

(** [sub in s] *)
Fixpoint contains (s sub : string) : bool :=
  match s with
  | EmptyString => startswith EmptyString sub
  | String _ s' => startswith s sub || contains s' sub
  end.

(** [any(k in s for k in keys)] *)
Definition any_in (keys : list string) (s : string) : bool :=
  existsb (contains s) keys.

(** [[k for k in keys if k in s]] *)
Definition found_in (keys : list string) (s : string) : list string :=
  filter (contains s) keys.

Fixpoint rev_string_aux (s acc : string) : string :=
  match s with
  | EmptyString => acc
  | String c s' => rev_string_aux s' (String c acc)
  end.
Definition rev_string (s : string) : string := rev_string_aux s EmptyString.

Fixpoint lstrip (s : string) : string :=
  match s with
  | EmptyString => EmptyString
  | String c s' => if isspace c then lstrip s' else s
  end.

(** [s.strip()] *)
Definition strip (s : string) : string :=
  lstrip (rev_string (lstrip (rev_string s))).

(** [s.split()]: maximal runs of non-whitespace characters.  [cur] is the
    run being read, most recent character first. *)
Fixpoint split_ws_aux (s cur : string) : list string :=
  match s with
  | EmptyString =>
      match cur with EmptyString => [] | _ => [rev_string cur] end
  | String c s' =>
      if isspace c then
        match cur with
        | EmptyString => split_ws_aux s' EmptyString
        | _ => rev_string cur :: split_ws_aux s' EmptyString
        end
      else split_ws_aux s' (String c cur)
  end.
Definition split_ws (s : string) : list string := split_ws_aux s EmptyString.

(** [sep.join(parts)] *)
Definition join (sep : string) (parts : list string) : string :=
  String.concat sep parts.

(** [re.split(r"[.;]", s)]: cut at every full stop or semicolon. *)
Definition is_stop (c : ascii) : bool :=
  Ascii.eqb c "."%char || Ascii.eqb c ";"%char.

Fixpoint split_stops_aux (s cur : string) : list string :=
  match s with
  | EmptyString => [rev_string cur]
  | String c s' =>
      if is_stop c then rev_string cur :: split_stops_aux s' EmptyString
      else split_stops_aux s' (String c cur)
  end.
Definition split_stops (s : string) : list string :=
  split_stops_aux s EmptyString.

(** [all(p(c) for c in s)] *)
Fixpoint all_chars (p : ascii -> bool) (s : string) : bool :=
  match s with
  | EmptyString => true
  | String c s' => p c && all_chars p s'
  end.


End PyStr.

(* ================================================================== *)
(** ** Enumerations of [models/database.py] *)
(* ================================================================== *)

Inductive ClauseType : Type :=
  | OBLIGATION | EXCLUSION | TERMINATION | LIABILITY | PAYMENT
  | CONFIDENTIALITY | INTELLECTUAL_PROPERTY | WARRANTY | INDEMNIFICATION
  | FORCE_MAJEURE | DISPUTE_RESOLUTION | AMENDMENT | GENERAL.

Inductive RiskLevel : Type := LOW | MEDIUM | HIGH | CRITICAL.

Definition ClauseType_eqb (a b : ClauseType) : bool :=
  match a, b with
  | OBLIGATION, OBLIGATION | EXCLUSION, EXCLUSION | TERMINATION, TERMINATION
  | LIABILITY, LIABILITY | PAYMENT, PAYMENT | CONFIDENTIALITY, CONFIDENTIALITY
  | INTELLECTUAL_PROPERTY, INTELLECTUAL_PROPERTY | WARRANTY, WARRANTY
  | INDEMNIFICATION, INDEMNIFICATION | FORCE_MAJEURE, FORCE_MAJEURE
  | DISPUTE_RESOLUTION, DISPUTE_RESOLUTION | AMENDMENT, AMENDMENT
  | GENERAL, GENERAL => true
  | _, _ => false
  end.

(** [clause_type.value] *)
Definition ClauseType_value (t : ClauseType) : string :=
  match t with
  | OBLIGATION => "OBLIGATION" | EXCLUSION => "EXCLUSION"
  | TERMINATION => "TERMINATION" | LIABILITY => "LIABILITY"
  | PAYMENT => "PAYMENT" | CONFIDENTIALITY => "CONFIDENTIALITY"
  | INTELLECTUAL_PROPERTY => "INTELLECTUAL_PROPERTY" | WARRANTY => "WARRANTY"
  | INDEMNIFICATION => "INDEMNIFICATION" | FORCE_MAJEURE => "FORCE_MAJEURE"
  | DISPUTE_RESOLUTION => "DISPUTE_RESOLUTION" | AMENDMENT => "AMENDMENT"
  | GENERAL => "GENERAL"
  end.

(** [a > b] on scores *)
Definition Qgtb (a b : Q) : bool := negb (Qle_bool a b).

(** [x in [s1, s2, ...]] on strings *)
Definition str_in (x : string) (l : list string) : bool :=
  existsb (String.eqb x) l.

(* ================================================================== *)
(** ** [ClauseIdentifier] (extractors/document_parser.py) *)
(* ================================================================== *)

Module ClauseIdentifier.
Import PyStr.

Definition OBLIGATION_KEYWORDS : list string :=
  ["shall"; "must"; "will"; "agrees to"; "obligated"; "required to"].
Definition EXCLUSION_KEYWORDS : list string :=
  ["shall not"; "except"; "excluding"; "does not include"; "not applicable"].
Definition LIABILITY_KEYWORDS : list string :=
  ["liable"; "liability"; "damages"; "indemnify"; "responsible for"].
Definition TERMINATION_KEYWORDS : list string :=
  ["terminate"; "termination"; "cancel"; "cancellation"; "end this agreement"].

Definition _estimate_clause_type (text : string) : string :=
  let text_lower := lower text in
  if any_in EXCLUSION_KEYWORDS text_lower then "EXCLUSION"
  else if any_in OBLIGATION_KEYWORDS text_lower then "OBLIGATION"
  else if any_in LIABILITY_KEYWORDS text_lower then "LIABILITY"
  else if any_in TERMINATION_KEYWORDS text_lower then "TERMINATION"
  else "GENERAL".

(** [re.split(r"(?<=[.;])\s+(?=[A-Z(])", text)].

    A separator is a maximal whitespace run that directly follows a stop
    character and is directly followed by an upper-case letter or an
    opening parenthesis.  [prev] is the last character consumed, [cur]
    the piece being read (reversed) and [pend] the whitespace run (also
    reversed) that began right after a stop character, if one is open. *)
Definition opens_sentence (c : ascii) : bool :=
  isupper c || Ascii.eqb c "("%char.

Fixpoint split_sentences_aux
    (s : string) (prev : option ascii) (cur : string) (pend : option string)
    : list string :=
  match s with
  | EmptyString =>
      match pend with
      | None => [rev_string cur]
      | Some ws => [rev_string (ws ++ cur)]
      end
  | String c s' =>
      match pend with
      | Some ws =>
          if isspace c then
            split_sentences_aux s' (Some c) cur (Some (String c ws))
          else if opens_sentence c then
            rev_string cur
              :: split_sentences_aux s' (Some c) (String c EmptyString) None
          else
            split_sentences_aux s' (Some c) (String c (ws ++ cur)) None
      | None =>
          let after_stop :=
            match prev with Some p => is_stop p | None => false end in
          if isspace c && after_stop then
            split_sentences_aux s' (Some c) cur (Some (String c EmptyString))
          else
            split_sentences_aux s' (Some c) (String c cur) None
      end
  end.

Definition split_sentences (text : string) : list string :=
  split_sentences_aux text None EmptyString None.

(** [re.match(r"^[\(\[]*[a-z0-9ivx]+[\)\]]\s*", sentence)] succeeds. *)
Definition is_open (c : ascii) : bool :=
  Ascii.eqb c "("%char || Ascii.eqb c "["%char.
Definition is_close (c : ascii) : bool :=
  Ascii.eqb c ")"%char || Ascii.eqb c "]"%char.
Definition is_marker_char (c : ascii) : bool := islower c || isdigit c.

Fixpoint skip_open (s : string) : string :=
  match s with
  | String c s' => if is_open c then skip_open s' else s
  | EmptyString => EmptyString
  end.

(** after at least one marker character ([seen]), a closing bracket *)
Fixpoint marker_then_close (s : string) (seen : bool) : bool :=
  match s with
  | EmptyString => false
  | String c s' =>
      if is_marker_char c then marker_then_close s' true
      else seen && is_close c
  end.

Definition starts_new_clause (sentence : string) : bool :=
  marker_then_close (skip_open sentence) false.

(** The dictionaries appended to [clauses]. *)
Record clause_dict : Type := mk_clause_dict {
  cd_text : string;
  cd_clause_number : nat;
  cd_section_number : string;
  cd_estimated_type : string
}.

(** [section_info.get("number", "")] *)
Definition section_number_of (section_info : option string) : string :=
  match section_info with Some n => n | None => "" end.

Definition flush (current_clause : list string) (clause_number : nat)
    (section_info : option string) : clause_dict :=
  let clause_text := join " " current_clause in
  mk_clause_dict clause_text clause_number (section_number_of section_info)
                 (_estimate_clause_type clause_text).

(** The [for sentence in sentences] loop; [current_clause] is kept in
    reading order. *)
Fixpoint split_loop (sentences : list string) (section_info : option string)
    (clauses : list clause_dict) (current_clause : list string)
    (clause_number : nat) : list clause_dict * list string * nat :=
  match sentences with
  | [] => (clauses, current_clause, clause_number)
  | sentence :: rest =>
      let sentence := strip sentence in
      match sentence with
      | EmptyString =>
          split_loop rest section_info clauses current_clause clause_number
      | _ =>
          if starts_new_clause sentence then
            match current_clause with
            | [] =>
                split_loop rest section_info clauses [sentence] clause_number
            | _ =>
                split_loop rest section_info
                  (clauses ++ [flush current_clause clause_number section_info])
                  [sentence] (S clause_number)
            end
          else
            split_loop rest section_info clauses
                       (current_clause ++ [sentence]) clause_number
      end
  end.

Definition split_into_clauses (text : string) (section_info : option string)
    : list clause_dict :=
  let '(clauses, current_clause, clause_number) :=
    split_loop (split_sentences text) section_info [] [] 1 in
  match current_clause with
  | [] => clauses
  | _ => clauses ++ [flush current_clause clause_number section_info]
  end.

End ClauseIdentifier.

(* ================================================================== *)
(** ** Tables of [models/database.py] and the session *)
(* ================================================================== *)

(** A stored [embedding_vector] is the JSON text written by
    [ClauseExtractor._enhance_clauses] ([json.dumps] of a list of floats);
    the model keeps the decoded list, [None] standing for a NULL or empty
    column. *)
Record Clause : Type := mk_Clause {
  clause_id : Z;
  clause_contract_id : Z;
  clause_section_number : option string;
  clause_text : string;
  clause_type : ClauseType;
  clause_embedding_vector : option (list R);
  clause_page_number : option Z
}.

Record Contract : Type := mk_Contract {
  contract_id : Z;
  contract_name : string;
  contract_is_amendment : bool;
  contract_parent_contract_id : option Z
}.

(** A [Conflict] as built by [_check_clause_conflict]; [conflict_id] and
    [conflict_is_resolved] are the columns filled in by the database. *)
Record Conflict : Type := mk_Conflict {
  conflict_id : option Z;
  conflict_clause_id : Z;
  conflicting_clause_id : Z;
  conflict_type : string;
  conflict_description : string;
  conflict_severity : RiskLevel;
  conflict_confidence_score : Q;
  conflict_is_resolved : bool
}.

Record QuestionAnswer : Type := mk_QuestionAnswer {
  qa_question : string;
  qa_question_embedding : option (list R);
  qa_answer : string;
  qa_confidence_score : R;
  qa_evidence_clauses : list (Z * R);
  qa_asked_by : string;
  qa_contract_id : option Z
}.

Record Session : Type := mk_Session {
  db_contracts : list Contract;
  db_clauses : list Clause;
  db_conflicts : list Conflict;
  db_question_answers : list QuestionAnswer
}.

(** [contract.clauses]: the relationship on [Clause.contract_id]. *)
Definition clauses_of (s : Session) (c : Contract) : list Clause :=
  filter (fun cl => (clause_contract_id cl =? contract_id c)%Z) (db_clauses s).

(** [session.query(Contract).filter_by(id=i).first()] *)
Definition contract_by_id (s : Session) (i : Z) : option Contract :=
  find (fun c => (contract_id c =? i)%Z) (db_contracts s).

(** Thresholds of [config.py] used by the analysers. *)
Record Config : Type := mk_Config {
  SIMILARITY_THRESHOLD : R;
  CONFLICT_THRESHOLD : Q
}.

(** The defaults of [config.py] (no environment override). *)
Definition Config_default : Config :=
  mk_Config (85 / 100)%R (3 # 10).

Inductive error : Type :=
  | ValueError (msg : string)
  | IndexError
  | OperationalError (msg : string)
  | ZeroDivisionError.

Inductive result (A : Type) : Type :=
  | Ok (a : A)
  | Raise (e : error).
Arguments Ok {A} a.
Arguments Raise {A} e.

(** Printing of integers and optional strings inside f-strings. *)
Definition str_of_nat (n : nat) : string :=
  NilZero.string_of_uint (Nat.to_uint n).
Definition str_of_Z (z : Z) : string :=
  NilZero.string_of_int (Z.to_int z).
Definition str_of_opt (o : option string) : string :=
  match o with Some s => s | None => "None" end.

(* ================================================================== *)
(** ** The [LIKE] operator of the database *)
(* ================================================================== *)

(** The engine is SQLite ([Config.DEFAULT_DB], unless [DATABASE_URL] names
    another one), with its default settings. *)
Module Sqlite.
Import PyStr.

(** The operands reach the comparison as NUL-terminated text. *)
Fixpoint c_text (s : string) : string :=
  match s with
  | EmptyString => EmptyString
  | String c s' =>
      if Ascii.eqb c Ascii.zero then EmptyString else String c (c_text s')
  end.

(** [f] holds of [t] or of one of its proper suffixes. *)
Fixpoint any_suffix (f : string -> bool) (t : string) : bool :=
  f t
  || match t with
     | EmptyString => false
     | String _ t' => any_suffix f t'
     end.

(** The comparison itself: a percent sign in the pattern stands for any
    run of characters, an underscore for any one character and every
    other character for itself, upper- and lower-case ASCII letters being
    equal; there is no escape character. *)
Fixpoint like_match (pattern text : string) {struct pattern} : bool :=
  match pattern with
  | EmptyString =>
      match text with EmptyString => true | String _ _ => false end
  | String p pattern' =>
      if Ascii.eqb p "%"%char then any_suffix (like_match pattern') text
      else
        match text with
        | EmptyString => false
        | String c text' =>
            (Ascii.eqb p "_"%char
             || Ascii.eqb (lower_char p) (lower_char c))
            && like_match pattern' text'
        end
  end.

(** [SQLITE_MAX_LIKE_PATTERN_LENGTH], counted on the whole pattern. *)
Definition MAX_LIKE_PATTERN_LENGTH : Z := 50000.

(** [text LIKE pattern] *)
Definition like (text pattern : string) : result bool :=
  if (MAX_LIKE_PATTERN_LENGTH <? Z.of_nat (String.length pattern))%Z
  then Raise (OperationalError "LIKE or GLOB pattern too complex")
  else Ok (like_match (c_text pattern) (c_text text)).

End Sqlite.

(* ================================================================== *)
(** ** Cosine similarity (shared by the detector and the QA system) *)
(* ================================================================== *)

(** The accumulation loop [for a, b in zip(vec1, vec2)]. *)
Definition cosine_step (acc : R * R * R) (ab : R * R) : R * R * R :=
  let '(dot, n1, n2) := acc in
  let '(a, b) := ab in
  (dot + a * b, n1 + a * a, n2 + b * b)%R.

Definition cosine_loop (vec1 vec2 : list R) : R * R * R :=
  fold_left cosine_step (combine vec1 vec2) (0, 0, 0)%R.

Definition _cosine_similarity (vec1 vec2 : list R) : R :=
  match vec1, vec2 with
  | [], _ | _, [] => 0%R
  | _, _ =>
      if negb (List.length vec1 =? List.length vec2)%nat then 0%R
      else
        let '(dot, n1, n2) := cosine_loop vec1 vec2 in
        if Rle_dec n1 0 then 0%R
        else if Rle_dec n2 0 then 0%R
        else (dot / sqrt (n1 * n2))%R
  end.

(** The invariant of the accumulation loop: both squared norms are
    non-negative and the Cauchy-Schwarz inequality holds for the part of
    the vectors read so far. *)
Definition cs_inv (acc : R * R * R) : Prop :=
  let '(dot, n1, n2) := acc in
  (0 <= n1 /\ 0 <= n2 /\ dot * dot <= n1 * n2)%R.

(** *** The same computation on binary64 numbers

    Every operation rounds to the nearest binary64 number; a product of
    the two squared norms that underflows to zero makes the final division
    raise. *)
Module Binary64.
Import PrimFloat.

Definition cosine_step (acc : float * float * float) (ab : float * float)
    : float * float * float :=
  let '(dot, n1, n2) := acc in
  let '(a, b) := ab in
  (dot + a * b, n1 + a * a, n2 + b * b)%float.

Definition cosine_loop (vec1 vec2 : list float) : float * float * float :=
  fold_left cosine_step (combine vec1 vec2) (0, 0, 0)%float.

Definition _cosine_similarity (vec1 vec2 : list float) : result float :=
  match vec1, vec2 with
  | [], _ | _, [] => Ok 0%float
  | _, _ =>
      if negb (List.length vec1 =? List.length vec2)%nat then Ok 0%float
      else
        let '(dot, n1, n2) := cosine_loop vec1 vec2 in
        if (n1 <=? 0)%float || (n2 <=? 0)%float then Ok 0%float
        else
          let norm := PrimFloat.sqrt (n1 * n2) in
          if (norm =? 0)%float then Raise ZeroDivisionError
          else Ok (dot / norm)%float
  end.

End Binary64.

(* ================================================================== *)
(** ** [ConflictDetector] (analyzers/conflict_detector.py) *)
(* ================================================================== *)

Module ConflictDetector.
Import PyStr.

Definition negations : list string :=
  ["not"; "no"; "never"; "without"; "except"; "excluding"].
Definition obligations : list string := ["shall"; "must"; "will"; "required"].
Definition prohibitions : list string :=
  ["shall not"; "must not"; "prohibited"; "forbidden"].

(** [sum(1 for neg in negations if neg in text)] *)
Definition negation_count (text_lower : string) : Z :=
  Z.of_nat (List.length (found_in negations text_lower)).

Definition _check_contradiction (text1 text2 : string) : Q :=
  let text1_lower := lower text1 in
  let text2_lower := lower text2 in
  let score := 0 in
  let has_obligation_1 := any_in obligations text1_lower in
  let has_prohibition_1 := any_in prohibitions text1_lower in
  let has_obligation_2 := any_in obligations text2_lower in
  let has_prohibition_2 := any_in prohibitions text2_lower in
  let score :=
    if (has_obligation_1 && has_prohibition_2)
       || (has_prohibition_1 && has_obligation_2)
    then score + (7 # 10) else score in
  let negation_count_1 := negation_count text1_lower in
  let negation_count_2 := negation_count text2_lower in
  let score :=
    if (2 <=? Z.abs (negation_count_1 - negation_count_2))%Z
    then score + (3 # 10) else score in
  Qmin score 1.

Definition critical_types : list string :=
  ["LIABILITY"; "TERMINATION"; "INDEMNIFICATION"; "PAYMENT"].

Definition _assess_conflict_severity
    (clause_type : ClauseType) (contradiction_score : Q) : RiskLevel :=
  if str_in (ClauseType_value clause_type) critical_types then
    if Qgtb contradiction_score (7 # 10) then CRITICAL else HIGH
  else
    if Qgtb contradiction_score (7 # 10) then HIGH
    else if Qgtb contradiction_score (5 # 10) then MEDIUM
    else LOW.

(** [f"{score:.2%}"]: the score in hundredths of a percent, rounded to the
    nearest, two decimals shown. *)
Definition two_digits (n : Z) : string :=
  (if (n <? 10)%Z then "0" else "") ++ str_of_Z n.
Definition format_percent (score : Q) : string :=
  let n := Qfloor (score * 10000 + (1 # 2)) in
  str_of_Z (n / 100) ++ "." ++ two_digits (n mod 100) ++ "%".

Definition _generate_conflict_description
    (clause1 clause2 : Clause) (conflict_type : string) (score : Q) : string :=
  let s1 := str_of_opt (clause_section_number clause1) in
  let s2 := str_of_opt (clause_section_number clause2) in
  let desc := conflict_type ++ ": " in
  let desc :=
    if String.eqb conflict_type "OVERRIDE" then
      desc ++ "Amendment clause (Section " ++ s1 ++ ") may override "
           ++ "original clause (Section " ++ s2 ++ "). "
    else if String.eqb conflict_type "VERSION_CONFLICT" then
      desc ++ "Different versions contain conflicting clauses in sections "
           ++ s1 ++ " and " ++ s2 ++ ". "
    else
      desc ++ "Contradictory clauses found in sections "
           ++ s1 ++ " and " ++ s2 ++ ". " in
  desc ++ "Conflict confidence: " ++ format_percent score.

(** [json.loads(c.embedding_vector) if c.embedding_vector else None],
    followed by the test [not emb]: an empty list counts as absent. *)
Definition usable_embedding (c : Clause) : option (list R) :=
  match clause_embedding_vector c with
  | Some (x :: v) => Some (x :: v)
  | _ => None
  end.

Section Detector.
Variable cfg : Config.

Definition _check_clause_conflict
    (clause1 clause2 : Clause) (conflict_type : string) : option Conflict :=
  match usable_embedding clause1, usable_embedding clause2 with
  | Some emb1, Some emb2 =>
      let similarity := _cosine_similarity emb1 emb2 in
      if Rlt_dec (SIMILARITY_THRESHOLD cfg) similarity then
        let contradiction_score :=
          _check_contradiction (clause_text clause1) (clause_text clause2) in
        if Qgtb contradiction_score (CONFLICT_THRESHOLD cfg) then
          let severity :=
            _assess_conflict_severity (clause_type clause1)
                                      contradiction_score in
          let description :=
            _generate_conflict_description clause1 clause2 conflict_type
                                           contradiction_score in
          Some (mk_Conflict None (clause_id clause1) (clause_id clause2)
                            conflict_type description severity
                            contradiction_score false)
        else None
      else None
  | _, _ => None
  end.

(** [[r for (a, b) in pairs if (r := check(a, b, kind))]] *)
Fixpoint check_pairs (pairs : list (Clause * Clause)) (kind : string)
    : list Conflict :=
  match pairs with
  | [] => []
  | (c1, c2) :: rest =>
      match _check_clause_conflict c1 c2 kind with
      | Some k => k :: check_pairs rest kind
      | None => check_pairs rest kind
      end
  end.

(** *** Internal contradictions *)

(** [clauses_by_type]: a dict in insertion order, built by appending each
    clause to the bucket of its type. *)
Fixpoint bucket_add (cl : Clause) (buckets : list (ClauseType * list Clause))
    : list (ClauseType * list Clause) :=
  match buckets with
  | [] => [(clause_type cl, [cl])]
  | (t, cls) :: rest =>
      if ClauseType_eqb t (clause_type cl) then (t, (cls ++ [cl])%list) :: rest
      else (t, cls) :: bucket_add cl rest
  end.

Definition clauses_by_type (clauses : list Clause)
    : list (ClauseType * list Clause) :=
  fold_left (fun b cl => bucket_add cl b) clauses [].

(** [(clause1, clause2)] for [i, clause1] and [clause2 in l[i+1:]] *)
Fixpoint later_pairs (l : list Clause) : list (Clause * Clause) :=
  match l with
  | [] => []
  | c1 :: rest => map (fun c2 => (c1, c2)) rest ++ later_pairs rest
  end.

Definition internal_pairs (s : Session) (contract : Contract)
    : list (Clause * Clause) :=
  flat_map (fun b => later_pairs (snd b))
           (clauses_by_type (clauses_of s contract)).

Definition _detect_internal_conflicts (s : Session) (contract : Contract)
    : list Conflict :=
  check_pairs (internal_pairs s contract) "CONTRADICTION".

(** *** Amendment against its parent *)

(** [section.split(".")[0]] *)
Fixpoint first_dot_segment_aux (s cur : string) : string :=
  match s with
  | EmptyString => rev_string cur
  | String c s' =>
      if Ascii.eqb c "."%char then rev_string cur
      else first_dot_segment_aux s' (String c cur)
  end.
Definition first_dot_segment (s : string) : string :=
  first_dot_segment_aux s EmptyString.

Definition _sections_related (section1 section2 : option string) : bool :=
  match section1, section2 with
  | Some (String a s1), Some (String b s2) =>
      String.eqb (first_dot_segment (String a s1))
                 (first_dot_segment (String b s2))
  | _, _ => false
  end.

Definition parent_pairs (amendment_clauses parent_clauses : list Clause)
    : list (Clause * Clause) :=
  flat_map
    (fun amend_clause =>
       map (fun parent_clause => (amend_clause, parent_clause))
         (filter
            (fun parent_clause =>
               ClauseType_eqb (clause_type amend_clause)
                              (clause_type parent_clause)
               || _sections_related (clause_section_number amend_clause)
                                    (clause_section_number parent_clause))
            parent_clauses))
    amendment_clauses.

(** [amendment.parent_contract]: the row the foreign key points to. *)
Definition parent_contract (s : Session) (amendment : Contract)
    : option Contract :=
  match contract_parent_contract_id amendment with
  | Some p => contract_by_id s p
  | None => None
  end.

Definition _detect_parent_conflicts (s : Session) (amendment : Contract)
    : list Conflict :=
  match parent_contract s amendment with
  | None => []
  | Some parent =>
      check_pairs
        (parent_pairs (clauses_of s amendment) (clauses_of s parent))
        "OVERRIDE"
  end.

(** *** Other versions *)

(** [contract.name.split()[0]] *)
Definition first_token (name : string) : result string :=
  match split_ws name with
  | tok :: _ => Ok tok
  | [] => Raise IndexError
  end.

(** [Contract.name.contains(tok)] is rendered as
    [name LIKE '%' || tok || '%'], the token being passed as it is. *)
Definition contains_pattern (tok : string) : string := "%" ++ tok ++ "%".

(** The query [filter(Contract.id != contract.id,
    Contract.name.contains(tok)).all()]: the table is read row by row,
    the test on the id first. *)
Fixpoint other_versions_scan (rows : list Contract) (contract : Contract)
    (pattern : string) : result (list Contract) :=
  match rows with
  | [] => Ok []
  | other :: rest =>
      if (contract_id other =? contract_id contract)%Z
      then other_versions_scan rest contract pattern
      else
        match Sqlite.like (contract_name other) pattern with
        | Raise e => Raise e
        | Ok matched =>
            match other_versions_scan rest contract pattern with
            | Raise e => Raise e
            | Ok found => Ok (if matched then other :: found else found)
            end
        end
  end.

Definition other_versions (s : Session) (contract : Contract) (tok : string)
    : result (list Contract) :=
  other_versions_scan (db_contracts s) contract (contains_pattern tok).

(** The pairs handed to [_check_clause_conflict] by the three nested
    loops. *)
Definition version_pairs (s : Session) (contract : Contract)
    (other_contracts : list Contract) : list (Clause * Clause) :=
  flat_map
    (fun other_contract =>
       flat_map
         (fun clause1 =>
            map (fun clause2 => (clause1, clause2))
              (filter
                 (fun clause2 =>
                    ClauseType_eqb (clause_type clause1) (clause_type clause2))
                 (clauses_of s other_contract)))
         (clauses_of s contract))
    other_contracts.

Definition _detect_version_conflicts (s : Session) (contract : Contract)
    : result (list Conflict) :=
  match first_token (contract_name contract) with
  | Raise e => Raise e
  | Ok tok =>
      match other_versions s contract tok with
      | Raise e => Raise e
      | Ok other_contracts =>
          Ok (check_pairs (version_pairs s contract other_contracts)
                          "VERSION_CONFLICT")
      end
  end.

(** *** The whole analysis *)

(** [session.add(conflict)] for each conflict, then [commit]: rows get
    consecutive primary keys. *)
Definition next_conflict_id (s : Session) : Z :=
  fold_left
    (fun m k => match conflict_id k with
                | Some i => Z.max m (i + 1)
                | None => m
                end)
    (db_conflicts s) 1%Z.

Fixpoint number_from (i : Z) (ks : list Conflict) : list Conflict :=
  match ks with
  | [] => []
  | k :: rest =>
      mk_Conflict (Some i) (conflict_clause_id k) (conflicting_clause_id k)
                  (conflict_type k) (conflict_description k)
                  (conflict_severity k) (conflict_confidence_score k)
                  (conflict_is_resolved k)
        :: number_from (i + 1) rest
  end.

Definition save_conflicts (s : Session) (ks : list Conflict)
    : Session * list Conflict :=
  let saved := number_from (next_conflict_id s) ks in
  (mk_Session (db_contracts s) (db_clauses s) (db_conflicts s ++ saved)%list
              (db_question_answers s),
   saved).

(** [if contract.is_amendment and contract.parent_contract_id] *)
Definition has_parent_link (contract : Contract) : bool :=
  contract_is_amendment contract
  && match contract_parent_contract_id contract with
     | Some p => negb (p =? 0)%Z
     | None => false
     end.

Definition detect_conflicts (s : Session) (cid : Z)
    : result (Session * list Conflict) :=
  match contract_by_id s cid with
  | None => Raise (ValueError ("Contract " ++ str_of_Z cid ++ " not found"))
  | Some contract =>
      let conflicts := _detect_internal_conflicts s contract in
      let conflicts :=
        if has_parent_link contract
        then (conflicts ++ _detect_parent_conflicts s contract)%list
        else conflicts in
      match _detect_version_conflicts s contract with
      | Raise e => Raise e
      | Ok version_conflicts =>
          Ok (save_conflicts s (conflicts ++ version_conflicts)%list)
      end
  end.

End Detector.

End ConflictDetector.

(* ================================================================== *)
(** ** [AmbiguityDetector] (analyzers/ambiguity_detector.py) *)
(* ================================================================== *)

Module AmbiguityDetector.
Import PyStr.

Definition AMBIGUOUS_TERMS : list string :=
  ["reasonable"; "appropriate"; "substantial"; "material"; "promptly";
   "timely"; "as soon as possible"; "best efforts"; "good faith";
   "commercially reasonable"; "may"; "might"; "approximately"; "about";
   "around"; "generally"; "typically"; "adequate"; "sufficient";
   "necessary"; "proper"].

Definition VAGUE_QUANTIFIERS : list string :=
  ["some"; "several"; "few"; "many"; "most"; "numerous"; "various";
   "certain"; "multiple"].

Definition COMPLEX_CONDITIONALS : list string :=
  ["unless"; "except"; "provided that"; "subject to"; "notwithstanding";
   "whereas"; "whereby"].

(** [re.search(pattern, text)] for a pattern anchored by [at]. *)
Fixpoint search (at_ : string -> bool) (s : string) : bool :=
  match s with
  | EmptyString => at_ EmptyString
  | String _ s' => at_ s || search at_ s'
  end.

Definition eat_digit (s : string) : option string :=
  match s with
  | String c s' => if isdigit c then Some s' else None
  | EmptyString => None
  end.

Definition eat_char (ch : ascii) (s : string) : option string :=
  match s with
  | String c s' => if Ascii.eqb c ch then Some s' else None
  | EmptyString => None
  end.

(** [\d{1,2}] followed by the continuation [k] *)
Definition digits_1_2 (s : string) (k : string -> bool) : bool :=
  match eat_digit s with
  | None => false
  | Some s1 =>
      match eat_digit s1 with
      | Some s2 => k s2 || k s1
      | None => k s1
      end
  end.

(** exactly [n] digits followed by [k] *)
Fixpoint digits_n (n : nat) (s : string) (k : string -> bool) : bool :=
  match n with
  | O => k s
  | S n' =>
      match eat_digit s with
      | Some s' => digits_n n' s' k
      | None => false
      end
  end.

Definition then_char (ch : ascii) (k : string -> bool) (s : string) : bool :=
  match eat_char ch s with Some s' => k s' | None => false end.

(** [\d{1,2}/\d{1,2}/\d{2,4}] matches at the head of [s] *)
Definition slash_date_at (s : string) : bool :=
  digits_1_2 s (then_char "/" (fun s =>
  digits_1_2 s (then_char "/" (fun s =>
  digits_n 2 s (fun _ => true))))).

(** [\d{4}-\d{2}-\d{2}] matches at the head of [s] *)
Definition iso_date_at (s : string) : bool :=
  digits_n 4 s (then_char "-" (fun s =>
  digits_n 2 s (then_char "-" (fun s =>
  digits_n 2 s (fun _ => true))))).

(** [\d+] matches at the head of [s] *)
Definition digit_at (s : string) : bool :=
  match eat_digit s with Some _ => true | None => false end.

(** [bool(re.search(r"\d+", text))] *)
Definition has_numbers (text : string) : bool := search digit_at text.

(** [bool(re.search(r"\d{1,2}/\d{1,2}/\d{2,4}|\d{4}-\d{2}-\d{2}", text))] *)
Definition has_dates (text : string) : bool :=
  search (fun s => slash_date_at s || iso_date_at s) text.

Definition negations : list string := ["not"; "no"; "never"; "neither"; "nor"].

(** [sum(1 for neg in negations if f" {neg} " in f" {text} ")] *)
Definition negation_count (text : string) : nat :=
  List.length
    (filter (fun neg => contains (" " ++ text ++ " ") (" " ++ neg ++ " "))
            negations).

(** [sum(len(s.split()) for s in sentences)] *)
Definition total_words (sentences : list string) : nat :=
  fold_right (fun s acc => (List.length (split_ws s) + acc)%nat) 0%nat sentences.

(** [sum(...) / max(len(sentences), 1)] *)
Definition avg_length (clause_text : string) : Q :=
  let sentences := split_stops clause_text in
  inject_Z (Z.of_nat (total_words sentences))
  / inject_Z (Z.of_nat (Nat.max (List.length sentences) 1)).

(** [f"{x:.0f}"]: nearest integer, ties to even *)
Definition round_half_even (q : Q) : Z :=
  let f := Qfloor q in
  let r := q - inject_Z f in
  if Qgtb r (1 # 2) then (f + 1)%Z
  else if Qgtb (1 # 2) r then f
  else if Z.even f then f else (f + 1)%Z.

Definition count_weight (n : nat) (w : Q) : Q := inject_Z (Z.of_nat n) * w.

Definition specifics_types : list string :=
  ["PAYMENT"; "TERMINATION"; "LIABILITY"].

(** The six checks, each returning the issue it reports (if any) and its
    contribution to the score. *)
Definition term_check (label : string) (terms : list string) (w : Q)
    (text : string) : list string * Q :=
  let found := found_in terms text in
  match found with
  | [] => ([], 0)
  | _ => ([label ++ join ", " found], count_weight (List.length found) w)
  end.

Definition specifics_check (clause : Clause) (text : string)
    : list string * Q :=
  if negb (has_numbers text) && negb (has_dates text)
     && (100 <? String.length text)%nat
  then
    if str_in (ClauseType_value (clause_type clause)) specifics_types
    then (["Lacks specific numbers or dates for critical clause type"],
          25 # 100)
    else ([], 0)
  else ([], 0).

Definition negation_check (text : string) : list string * Q :=
  if (2 <=? negation_count text)%nat
  then (["Contains multiple negations (potentially confusing)"], 2 # 10)
  else ([], 0).

Definition length_check (clause : Clause) : list string * Q :=
  let avg := avg_length (clause_text clause) in
  if Qgtb avg 40
  then (["Long average sentence length ("
           ++ str_of_Z (round_half_even avg) ++ " words)"], 15 # 100)
  else ([], 0).

Definition analyze_clause (clause : Clause) : bool * list string * Q :=
  let text := lower (clause_text clause) in
  let issues : list string := [] in
  let score := 0 in
  let '(i1, s1) := term_check "Ambiguous terms: " AMBIGUOUS_TERMS (15 # 100) text in
  let '(i2, s2) := term_check "Vague quantifiers: " VAGUE_QUANTIFIERS (1 # 10) text in
  let '(i3, s3) := term_check "Complex conditionals: " COMPLEX_CONDITIONALS (12 # 100) text in
  let '(i4, s4) := specifics_check clause text in
  let '(i5, s5) := negation_check text in
  let '(i6, s6) := length_check clause in
  let issues := (issues ++ i1 ++ i2 ++ i3 ++ i4 ++ i5 ++ i6)%list in
  let score := score + s1 + s2 + s3 + s4 + s5 + s6 in
  let score := Qmin score 1 in
  let has_ambiguity := (0 <? List.length issues)%nat in
  (has_ambiguity, issues, score).

(** third component of [analyze_clause] *)
Definition ambiguity_score (clause : Clause) : Q :=
  snd (analyze_clause clause).



Definition risk_critical_types : list string :=
  ["LIABILITY"; "INDEMNIFICATION"; "TERMINATION"; "PAYMENT";
   "INTELLECTUAL_PROPERTY"].
Definition risk_high_types : list string :=
  ["OBLIGATION"; "EXCLUSION"; "WARRANTY"; "CONFIDENTIALITY";
   "DISPUTE_RESOLUTION"].

Definition assess_risk_level (clause : Clause) (ambiguity_score : Q)
    : RiskLevel :=
  let clause_type := ClauseType_value (clause_type clause) in
  if str_in clause_type risk_critical_types then
    if Qgtb ambiguity_score (6 # 10) then CRITICAL
    else if Qgtb ambiguity_score (3 # 10) then HIGH
    else if Qgtb ambiguity_score (15 # 100) then MEDIUM
    else LOW
  else if str_in clause_type risk_high_types then
    if Qgtb ambiguity_score (7 # 10) then HIGH
    else if Qgtb ambiguity_score (4 # 10) then MEDIUM
    else LOW
  else
    if Qgtb ambiguity_score (8 # 10) then HIGH
    else if Qgtb ambiguity_score (5 # 10) then MEDIUM
    else LOW.

End AmbiguityDetector.

(* ================================================================== *)
(** ** [ClauseExtractor._normalize_text] (extractors/clause_extractor.py) *)
(* ================================================================== *)

Module ClauseExtractor.
Import PyStr.

(** ["".join(c if c.isalnum() or c.isspace() else " " for c in text)] *)
Fixpoint blank_specials (text : string) : string :=
  match text with
  | EmptyString => EmptyString
  | String c rest =>
      String (if isalnum c || isspace c then c else " "%char)
             (blank_specials rest)
  end.

Definition _normalize_text (text : string) : string :=
  (* Remove extra whitespace *)
  let text := join " " (split_ws text) in
  (* Lowercase *)
  let text := lower text in
  (* Remove special characters *)
  let text := blank_specials text in
  text.

(** a lower-case letter, a digit or the space character *)
Definition normal_char (c : ascii) : bool :=
  islower c || isdigit c || Ascii.eqb c " "%char.

(** a character of the whitespace-collapsed text: not whitespace, or the
    joining space *)
Definition collapsed_char (c : ascii) : bool :=
  negb (isspace c) || Ascii.eqb c " "%char.

(** [type_map.get(estimated_type, ClauseType.GENERAL)] *)
Definition _map_clause_type (estimated_type : string) : ClauseType :=
  if String.eqb estimated_type "OBLIGATION" then OBLIGATION
  else if String.eqb estimated_type "EXCLUSION" then EXCLUSION
  else if String.eqb estimated_type "LIABILITY" then LIABILITY
  else if String.eqb estimated_type "TERMINATION" then TERMINATION
  else GENERAL.

End ClauseExtractor.

(* ================================================================== *)
(** ** [QuestionAnsweringSystem] (qa_system/question_answering.py) *)
(* ================================================================== *)

(** Response models of [models/schemas.py]. *)
Record EvidenceClause : Type := mk_EvidenceClause {
  ev_clause_id : Z;
  ev_section_number : option string;
  ev_text : string;
  ev_relevance_score : R;
  ev_clause_type : string;
  ev_document_name : string;
  ev_page_number : option Z
}.

Record ConflictResponse : Type := mk_ConflictResponse {
  cr_id : option Z;
  cr_clause_id : Z;
  cr_conflicting_clause_id : Z;
  cr_conflict_type : string;
  cr_description : string;
  cr_severity : RiskLevel;
  cr_confidence_score : Q;
  cr_is_resolved : bool
}.

Record AnswerResponse : Type := mk_AnswerResponse {
  answer : string;
  confidence : R;
  evidence_clauses : list EvidenceClause;
  ambiguities : list string;
  conflicts : list ConflictResponse;
  requires_review : bool
}.

(** [l[:k]] for a Python integer [k]: a negative bound counts from the end. *)
Definition py_slice_to {A : Type} (l : list A) (k : Z) : list A :=
  if (0 <=? k)%Z then firstn (Z.to_nat k) l
  else firstn (List.length l - Z.to_nat (- k)) l.

(** [l.sort(key=lambda x: x[1], reverse=True)]: the stable sort of the
    language, largest key first, equal keys in their original order. *)
Section StableSort.
Context {A : Type}.
Variable key : A -> R.

Fixpoint insert_desc (x : A) (sorted : list A) : list A :=
  match sorted with
  | [] => [x]
  | y :: rest =>
      if Rlt_dec (key x) (key y) then y :: insert_desc x rest
      else x :: y :: rest
  end.

Definition sort_desc (l : list A) : list A := fold_right insert_desc [] l.

(** the elements whose key is exactly [r] *)
Definition with_key (r : R) (l : list A) : list A :=
  filter (fun x => if Req_dec_T (key x) r then true else false) l.

(** largest key first *)
Definition descending (l : list A) : Prop :=
  StronglySorted (fun x y => (key y <= key x)%R) l.
End StableSort.

Module QuestionAnsweringSystem.
Import PyStr.

Definition is_token_char (c : ascii) : bool := islower c || isdigit c.

(** [re.findall(r"[a-z0-9]+", text)] *)
Fixpoint findall_tokens (s cur : string) : list string :=
  match s with
  | EmptyString =>
      match cur with EmptyString => [] | _ => [rev_string cur] end
  | String c s' =>
      if is_token_char c then findall_tokens s' (String c cur)
      else
        match cur with
        | EmptyString => findall_tokens s' EmptyString
        | _ => rev_string cur :: findall_tokens s' EmptyString
        end
  end.

Definition _tokenize (text : string) : list string :=
  findall_tokens (lower text) EmptyString.

(** [set(...)]: the distinct tokens *)
Definition token_set (text : string) : list string :=
  nodup string_dec (_tokenize text).

(** [ta & tb] *)
Definition set_inter (ta tb : list string) : list string :=
  filter (fun t => str_in t tb) ta.

Definition _lexical_similarity (a b : string) : R :=
  let ta := token_set a in
  let tb := token_set b in
  match ta, tb with
  | [], _ | _, [] => 0%R
  | _, _ =>
      let inter := List.length (set_inter ta tb) in
      (INR inter / sqrt (INR (List.length ta * List.length tb)))%R
  end.

Definition ambiguous_terms : list string :=
  ["reasonable"; "appropriate"; "substantial"; "material"; "promptly";
   "timely"; "best efforts"; "good faith"].

Definition high_risk_types : list string :=
  ["LIABILITY"; "TERMINATION"; "INDEMNIFICATION"; "PAYMENT"].

Definition no_answer_text : string :=
  "I couldn't find relevant clauses to answer this question.".

Section System.
(** The optional embedding model: [encode question] is the vector of
    [self.embedding_model.encode([question])[0]], and [None] when the
    model is absent or the call raises. *)
Variable encode : string -> option (list R).
(** The order in which a Python [set] of strings is iterated. *)
Variable set_iteration : list string -> list string.

(** [query.filter(Clause.contract_id == contract_id)] when
    [contract_id] is given and non-zero, else every clause. *)
Definition candidate_clauses (s : Session) (cid : option Z) : list Clause :=
  match cid with
  | Some i =>
      if (i =? 0)%Z then db_clauses s
      else filter (fun cl => (clause_contract_id cl =? i)%Z) (db_clauses s)
  | None => db_clauses s
  end.

Definition clause_similarity (question : string)
    (question_embedding : option (list R)) (clause : Clause) : R :=
  match question_embedding, clause_embedding_vector clause with
  | Some qv, Some clause_vec => _cosine_similarity qv clause_vec
  | _, _ => _lexical_similarity question (clause_text clause)
  end.

Definition to_evidence (s : Session) (cs : Clause * R) : EvidenceClause :=
  let '(clause, score) := cs in
  let contract := contract_by_id s (clause_contract_id clause) in
  mk_EvidenceClause
    (clause_id clause) (clause_section_number clause) (clause_text clause)
    score (ClauseType_value (clause_type clause))
    (match contract with Some c => contract_name c | None => "Unknown" end)
    (clause_page_number clause).

Definition clause_scores (question : string) (clauses : list Clause)
    : list (Clause * R) :=
  let question_embedding := encode question in
  map (fun clause =>
         (clause, clause_similarity question question_embedding clause))
      clauses.

Definition _retrieve_evidence (s : Session) (question : string)
    (cid : option Z) (top_k : Z) : list EvidenceClause :=
  let clauses := candidate_clauses s cid in
  match clauses with
  | [] => []
  | _ =>
      let clause_scores := sort_desc snd (clause_scores question clauses) in
      let top_clauses := py_slice_to clause_scores top_k in
      map (to_evidence s) top_clauses
  end.

Definition _generate_answer (question : string)
    (evidence : list EvidenceClause) : string * R :=
  match evidence with
  | [] => ("No relevant information found.", 0%R)
  | most_relevant :: others =>
      let answer := "Based on " ++ ev_document_name most_relevant in
      let answer :=
        match ev_section_number most_relevant with
        | Some (String c n) => answer ++ ", Section " ++ String c n
        | _ => answer
        end in
      let answer := answer ++ ":" ++ String "010"%char (String "010"%char "") in
      let answer :=
        answer ++ String "034"%char (ev_text most_relevant)
               ++ String "034"%char "" in
      let answer :=
        match others with
        | [] => answer
        | _ =>
            answer ++ String "010"%char (String "010"%char "")
              ++ "This is further supported by "
              ++ str_of_nat (List.length evidence - 1)
              ++ " related clause(s)" ++ " in "
              ++ join ", " (set_iteration (map ev_document_name others))
              ++ "."
        end in
      (answer, ev_relevance_score most_relevant)
  end.

Definition _detect_ambiguities (evidence : list EvidenceClause)
    : list string :=
  flat_map
    (fun e =>
       let text_lower := lower (ev_text e) in
       match found_in ambiguous_terms text_lower with
       | [] => []
       | found_terms =>
           ["Section "
              ++ match ev_section_number e with
                 | Some (String c n) => String c n
                 | _ => "Unknown"
                 end
              ++ " contains ambiguous terms: " ++ join ", " found_terms]
       end)
    evidence.

Definition Z_in (x : Z) (l : list Z) : bool := existsb (Z.eqb x) l.

Definition _check_evidence_conflicts (s : Session)
    (evidence : list EvidenceClause) : list ConflictResponse :=
  let clause_ids := map ev_clause_id evidence in
  map (fun k =>
         mk_ConflictResponse
           (conflict_id k) (conflict_clause_id k) (conflicting_clause_id k)
           (conflict_type k) (conflict_description k) (conflict_severity k)
           (conflict_confidence_score k) (conflict_is_resolved k))
      (filter (fun k => Z_in (conflict_clause_id k) clause_ids
                        && Z_in (conflicting_clause_id k) clause_ids)
              (db_conflicts s)).

Definition _needs_review (evidence : list EvidenceClause)
    (conflicts : list ConflictResponse) (ambiguities : list string) : bool :=
  let high_risk_count :=
    List.length
      (filter (fun e => str_in (ev_clause_type e) high_risk_types) evidence) in
  if (2 <=? high_risk_count)%nat then true
  else if (0 <? List.length conflicts)%nat then true
  else if (2 <=? List.length ambiguities)%nat then true
  else
    match evidence with
    | e :: _ =>
        if Rlt_dec (ev_relevance_score e) (6 / 10) then true else false
    | [] => false
    end.

Definition _save_qa (s : Session) (question answer : string)
    (confidence : R) (evidence : list EvidenceClause) (asked_by : string)
    (cid : option Z) : Session :=
  let qa :=
    mk_QuestionAnswer
      question (encode question) answer confidence
      (map (fun e => (ev_clause_id e, ev_relevance_score e)) evidence)
      asked_by cid in
  mk_Session (db_contracts s) (db_clauses s) (db_conflicts s)
             (db_question_answers s ++ [qa])%list.

Definition answer_question (s : Session) (question : string)
    (cid : option Z) (top_k : Z) (asked_by : string)
    : Session * AnswerResponse :=
  (* Step 1: retrieve relevant clauses *)
  let evidence := _retrieve_evidence s question cid top_k in
  match evidence with
  | [] =>
      (s, mk_AnswerResponse no_answer_text 0%R [] [] [] false)
  | _ =>
      let '(answer, confidence) := _generate_answer question evidence in
      let ambiguities := _detect_ambiguities evidence in
      let conflicts := _check_evidence_conflicts s evidence in
      let requires_review := _needs_review evidence conflicts ambiguities in
      let s' :=
        _save_qa s question answer confidence evidence asked_by cid in
      (s', mk_AnswerResponse answer confidence evidence ambiguities
                             conflicts requires_review)
  end.

End System.

End QuestionAnsweringSystem.

(* ================================================================== *)
(** ** Orders used in the statements *)
(* ================================================================== *)

(** The order LOW < MEDIUM < HIGH < CRITICAL of [RiskLevel]. *)
Definition RiskLevel_rank (r : RiskLevel) : nat :=
  match r with LOW => 0 | MEDIUM => 1 | HIGH => 2 | CRITICAL => 3 end.

(** the clauses of type [t], in their order *)
Definition clauses_of_type (t : ClauseType) (l : list Clause) : list Clause :=
  filter (fun c => ClauseType_eqb t (clause_type c)) l.

(** [b] groups [l] by clause type: one non-empty bucket per type that
    occurs, holding the clauses of that type in their order. *)
Definition grouped_by_type (l : list Clause)
    (b : list (ClauseType * list Clause)) : Prop :=
  NoDup (map fst b)
  /\ (forall c, In c l -> In (clause_type c) (map fst b))
  /\ (forall t cls, In (t, cls) b -> cls <> [] /\ cls = clauses_of_type t l).

(** A check of [analyze_clause] is coherent when it reports an issue
    exactly when it adds to the score. *)
Definition coherent_check (p : list string * Q) : Prop :=
  (fst p = [] /\ snd p == 0) \/ (fst p <> [] /\ 0 < snd p).

(** a clause draft as [split_into_clauses] should produce it for the
    section [info] *)
Definition well_formed_draft (info : option string)
    (d : ClauseIdentifier.clause_dict) : Prop :=
  ClauseIdentifier.cd_section_number d = ClauseIdentifier.section_number_of info
  /\ ClauseIdentifier.cd_text d <> ""
  /\ ClauseIdentifier.cd_estimated_type d
     = ClauseIdentifier._estimate_clause_type (ClauseIdentifier.cd_text d).

(** the sentences that survive [strip] in the segmentation loop *)
Definition kept_sentences (text : string) : list string :=
  filter (fun s => negb (String.eqb s ""))
         (map PyStr.strip (ClauseIdentifier.split_sentences text)).

(** the version query for the token [tok] selects a row named [name] *)
Definition name_like (name tok : string) : bool :=
  Sqlite.like_match (Sqlite.c_text (ConflictDetector.contains_pattern tok))
                    (Sqlite.c_text name).

(** no character of [tok] is special for the database: no percent sign,
    no underscore, no NUL *)
Definition plain_token (tok : string) : bool :=
  PyStr.all_chars
    (fun c => negb (Ascii.eqb c "%"%char || Ascii.eqb c "_"%char
                    || Ascii.eqb c Ascii.zero))
    tok.

(** a conflict row once the database has given it the key [i] *)
Definition with_conflict_id (i : Z) (k : Conflict) : Conflict :=
  mk_Conflict (Some i) (conflict_clause_id k) (conflicting_clause_id k)
              (conflict_type k) (conflict_description k)
              (conflict_severity k) (conflict_confidence_score k)
              (conflict_is_resolved k).

(* ================================================================== *)
(** ** Sample data and stated notions *)
(* ================================================================== *)

Module Examples.
Import PyStr ConflictDetector.

Definition pay_and_liable : string :=
  "(a) Party shall pay within 30 days. (b) Party shall not be liable for delays.".

Definition deliver : string :=
  "The party shall deliver the goods within 10 days.".
Definition not_deliver : string :=
  "The party shall not deliver the goods within 10 days.".

Definition deliver_clause : Clause :=
  mk_Clause 1 1 (Some "4.1") deliver PAYMENT (Some [1%R]) (Some 1%Z).
Definition not_deliver_clause : Clause :=
  mk_Clause 2 1 (Some "4.2") not_deliver PAYMENT (Some [1%R]) (Some 1%Z).

(** Two contracts whose names agree on a prefix but on no word. *)
Definition service_contract : Contract :=
  mk_Contract 1 "Service Agreement" false None.
Definition services_addendum : Contract :=
  mk_Contract 2 "Services Addendum" false None.
Definition service_clause : Clause :=
  mk_Clause 10 1 (Some "1") "The supplier shall deliver." OBLIGATION None None.
Definition addendum_clause : Clause :=
  mk_Clause 20 2 (Some "1") "The supplier shall not deliver." OBLIGATION
            None None.
Definition version_session : Session :=
  mk_Session [service_contract; services_addendum]
             [service_clause; addendum_clause] [] [].

(** Retrieval samples: no embedding model, and a model that maps every
    question to the vector [[1]]. *)
Definition no_model : string -> option (list R) := fun _ => None.
Definition unit_model : string -> option (list R) := fun _ => Some [1%R].
Definition list_order : list string -> list string := fun l => l.
Definition empty_session : Session := mk_Session [] [] [] [].

(** a clause whose stored vector points away from [unit_model]'s *)
Definition opposite_clause : Clause :=
  mk_Clause 7 1 (Some "2") "Payment is due within 30 days." PAYMENT
            (Some [(-1)%R]) (Some 1%Z).
Definition opposite_session : Session :=
  mk_Session [mk_Contract 1 "Supply Agreement" false None]
             [opposite_clause] [] [].

(** Ambiguity samples. *)
Definition efforts_clause : Clause :=
  mk_Clause 3 1 (Some "5") 
    "The party shall use reasonable efforts to complete the task."
    OBLIGATION None None.
Definition negated_clause : Clause :=
  mk_Clause 4 1 None "a not b no" GENERAL None None.
Definition negated_glued_clause : Clause :=
  mk_Clause 4 1 None "a not b nomay" GENERAL None None.

(** The selection of other versions as the specification words it: the
    other contract's name shares the first whitespace token of this
    contract's name, i.e. that token is one of the other name's tokens. *)
Definition shares_first_token (name other_name : string) : Prop :=
  exists tok, first_token name = Ok tok /\ In tok (split_ws other_name).

End Examples.

(* ================================================================== *)
(** ** Further sample data *)
(* ================================================================== *)

Module Samples.
Import Examples.

(** One contract holding the "shall deliver" / "shall not deliver" pair. *)
Definition supply_contract : Contract :=
  mk_Contract 1 "Supply Agreement" false None.
Definition deliver_session : Session :=
  mk_Session [supply_contract] [deliver_clause; not_deliver_clause] [] [].

(** A prohibition. *)
Definition ban_text : string := "The Supplier shall not subcontract.".

(** A session without any stored vector. *)
Definition plain_session : Session :=
  mk_Session [service_contract; services_addendum]
             [service_clause; addendum_clause] [] [].

End Samples.

(* ================================================================== *)
(** ** [StructureAnalyzer] (extractors/document_parser.py) *)
(* ================================================================== *)

Module StructureAnalyzer.
Import PyStr.

(** [text.split("\n")] *)
Fixpoint split_lines_aux (s cur : string) : list string :=
  match s with
  | EmptyString => [rev_string cur]
  | String c s' =>
      if Ascii.eqb c "010"%char
      then rev_string cur :: split_lines_aux s' EmptyString
      else split_lines_aux s' (String c cur)
  end.
Definition split_lines (s : string) : list string :=
  split_lines_aux s EmptyString.

(** [re.match(r"^(\d+\.)+\s+[A-Z]", line)]: the four character classes
    are disjoint, so the match is a run of a small automaton. *)
Inductive numbered_state : Type := NeedDigit | InDigits | AfterDot | InGap.

Fixpoint numbered_run (s : string) (st : numbered_state) : bool :=
  match s with
  | EmptyString => false
  | String c s' =>
      match st with
      | NeedDigit => isdigit c && numbered_run s' InDigits
      | InDigits =>
          if isdigit c then numbered_run s' InDigits
          else Ascii.eqb c "."%char && numbered_run s' AfterDot
      | AfterDot =>
          if isdigit c then numbered_run s' InDigits
          else isspace c && numbered_run s' InGap
      | InGap => if isspace c then numbered_run s' InGap else isupper c
      end
  end.
Definition numbered_heading (line : string) : bool :=
  numbered_run line NeedDigit.

(** [re.match(r"^[A-Z][A-Z\s]+:", line)] *)
Fixpoint caps_run (s : string) (seen : bool) : bool :=
  match s with
  | EmptyString => false
  | String c s' =>
      if isupper c || isspace c then caps_run s' true
      else seen && Ascii.eqb c ":"%char
  end.
Definition caps_heading (line : string) : bool :=
  match line with
  | String c s' => isupper c && caps_run s' false
  | EmptyString => false
  end.

(** [re.match(r"^Article\s+\d+", line)] and the same for [Section] *)
Fixpoint gap_then_digit (s : string) (seen : bool) : bool :=
  match s with
  | EmptyString => false
  | String c s' =>
      if isspace c then gap_then_digit s' true else seen && isdigit c
  end.
Fixpoint drop_prefix (p s : string) : option string :=
  match p, s with
  | EmptyString, _ => Some s
  | String a p', String b s' =>
      if Ascii.eqb a b then drop_prefix p' s' else None
  | String _ _, EmptyString => None
  end.
Definition keyword_heading (keyword line : string) : bool :=
  match drop_prefix keyword line with
  | Some rest => gap_then_digit rest false
  | None => false
  end.

(** [re.match(r"^\([a-z]\)", line)] *)
Definition lettered_heading (line : string) : bool :=
  match line with
  | String a (String b (String c _)) =>
      Ascii.eqb a "("%char && islower b && Ascii.eqb c ")"%char
  | _ => false
  end.

(** [re.match(r"^\([ivxIVX]+\)", line)] *)
Definition is_roman (c : ascii) : bool :=
  existsb (Ascii.eqb c) ["i"; "v"; "x"; "I"; "V"; "X"]%char.
Fixpoint roman_run (s : string) (seen : bool) : bool :=
  match s with
  | EmptyString => false
  | String c s' =>
      if is_roman c then roman_run s' true
      else seen && Ascii.eqb c ")"%char
  end.
Definition roman_heading (line : string) : bool :=
  match line with
  | String c s' => Ascii.eqb c "("%char && roman_run s' false
  | EmptyString => false
  end.

Definition SECTION_PATTERNS : list (string -> bool) :=
  [numbered_heading; caps_heading; keyword_heading "Article";
   keyword_heading "Section"; lettered_heading; roman_heading].

(** The class [[\d\.\(\)a-z ivxIVX]] of the second expression. *)
Definition number_class (c : ascii) : bool :=
  isdigit c || Ascii.eqb c "."%char || Ascii.eqb c "("%char
  || Ascii.eqb c ")"%char || islower c || Ascii.eqb c " "%char
  || is_roman c.

(** the longest prefix in the class, and what follows it *)
Fixpoint span_class (s cur : string) : string * string :=
  match s with
  | EmptyString => (rev_string cur, EmptyString)
  | String c s' =>
      if number_class c then span_class s' (String c cur)
      else (rev_string cur, s)
  end.

(** The second [re.match]: group 1 is the longest non-empty prefix in the
    number class, group 2 is the rest of the line after optional
    whitespace; both are stripped. *)
Definition split_heading (line : string) : option (string * string) :=
  let '(num, rest) := span_class line EmptyString in
  match num with
  | EmptyString => None
  | _ => Some (strip num, strip rest)
  end.

(** The body of the loop over the lines: what a line adds, if anything. *)
Definition section_of_line (line : string) : option (string * string) :=
  let line := strip line in
  match line with
  | EmptyString => None
  | _ =>
      if existsb (fun pattern => pattern line) SECTION_PATTERNS
      then split_heading line
      else None
  end.

Fixpoint identify_from (i : nat) (lines : list string)
    : list (string * string * nat) :=
  match lines with
  | [] => []
  | line :: rest =>
      match section_of_line line with
      | Some (section_num, title) =>
          (section_num, title, i) :: identify_from (S i) rest
      | None => identify_from (S i) rest
      end
  end.

Definition identify_sections (text : string) : list (string * string * nat) :=
  identify_from 0 (split_lines text).

End StructureAnalyzer.

(* ================================================================== *)
(** ** The extraction pipeline of [ClauseExtractor] *)
(* ================================================================== *)

Module Extraction.
Import PyStr ClauseIdentifier ClauseExtractor StructureAnalyzer.

(** [_refine_clause_type]: the first keyword group found in the lower-cased
    text decides; without any keyword the current type is kept. *)
Definition refinements : list (list string * ClauseType) :=
  [ (["confidential"; "non-disclosure"], CONFIDENTIALITY);
    (["payment"; "fee"; "invoice"], PAYMENT);
    (["intellectual property"; "copyright"; "patent"], INTELLECTUAL_PROPERTY);
    (["warranty"; "warrants"; "guarantee"], WARRANTY);
    (["indemnif"; "hold harmless"], INDEMNIFICATION);
    (["force majeure"; "act of god"], FORCE_MAJEURE);
    (["dispute"; "arbitration"; "litigation"], DISPUTE_RESOLUTION);
    (["amend"; "modification"; "change"], AMENDMENT) ].

Fixpoint first_refinement (groups : list (list string * ClauseType))
    (text_lower : string) : option ClauseType :=
  match groups with
  | [] => None
  | (keywords, t) :: rest =>
      if any_in keywords text_lower then Some t
      else first_refinement rest text_lower
  end.

Definition _refine_clause_type (text : string) (current_type : ClauseType)
    : ClauseType :=
  let text_lower := lower text in
  match first_refinement refinements text_lower with
  | Some t => t
  | None => current_type
  end.

(** The arguments of the [Clause(...)] call in [_create_clause], with the
    [embedding_vector] set later; [extracted_at] (the clock) is left
    out. *)
Record NewClause : Type := mk_NewClause {
  nc_contract_id : Z;
  nc_section_number : string;
  nc_clause_path : string;
  nc_title : string;
  nc_text : string;
  nc_normalized_text : string;
  nc_clause_type : ClauseType;
  nc_page_number : Z;
  nc_position_in_document : nat;
  nc_embedding_vector : option (list R)
}.

Definition _create_clause (contract : Contract) (clause_dict : clause_dict)
    (section_num section_title : string) (page_number : Z) (position : nat)
    : NewClause :=
  let text := cd_text clause_dict in
  let clause_path :=
    match section_num with
    | EmptyString => str_of_nat (cd_clause_number clause_dict)
    | _ => section_num ++ "." ++ str_of_nat (cd_clause_number clause_dict)
    end in
  let normalized_text := _normalize_text text in
  let clause_type := _map_clause_type (cd_estimated_type clause_dict) in
  mk_NewClause (contract_id contract) section_num clause_path section_title
               text normalized_text clause_type page_number position None.

(** [lines[a:b]] for non-negative bounds *)
Definition slice {A : Type} (l : list A) (a b : nat) : list A :=
  firstn (b - a) (skipn a l).

(** The loop of [_extract_section_text] over [enumerate(all_sections)]:
    the last index whose position is [start_pos] and, once one was seen,
    the first later index with a larger position. *)
Fixpoint find_indices (i : nat) (sections : list (string * string * nat))
    (start_pos : nat) (current_idx : option nat) : option nat * option nat :=
  match sections with
  | [] => (current_idx, None)
  | (_, _, pos) :: rest =>
      if (pos =? start_pos)%nat
      then find_indices (S i) rest start_pos (Some i)
      else
        match current_idx with
        | Some _ =>
            if (start_pos <? pos)%nat then (current_idx, Some i)
            else find_indices (S i) rest start_pos current_idx
        | None => find_indices (S i) rest start_pos current_idx
        end
  end.

Definition position_at (sections : list (string * string * nat)) (i : nat)
    : nat :=
  snd (nth i sections (EmptyString, EmptyString, 0%nat)).

Definition newline : string := String "010"%char EmptyString.

Definition _extract_section_text (full_text : string) (start_pos : nat)
    (all_sections : list (string * string * nat)) : string :=
  let lines := split_lines full_text in
  match find_indices 0 all_sections start_pos None with
  | (Some current_idx, next_idx) =>
      let start_line := position_at all_sections current_idx in
      let end_line :=
        match next_idx with
        | Some n => position_at all_sections n
        | None => List.length lines
        end in
      join newline (slice lines start_line end_line)
  | (None, _) => EmptyString
  end.

(** [sections] of a page, with the fallback for a page without headings *)
Definition page_sections (page_text : string) : list (string * string * nat) :=
  match identify_sections page_text with
  | [] => [(EmptyString, "Document Text", 0%nat)]
  | sections => sections
  end.

(** The three nested loops of step 2 of [extract_from_contract], threading
    the list built so far and the running [clause_position]. *)
Definition add_clause_dicts (contract : Contract)
    (section_num section_title : string) (page_num : Z)
    (dicts : list clause_dict) (acc : list NewClause * nat)
    : list NewClause * nat :=
  fold_left
    (fun st d =>
       let '(all_clauses, clause_position) := st in
       ((all_clauses
         ++ [_create_clause contract d section_num section_title page_num
                            clause_position])%list,
        S clause_position))
    dicts acc.

Definition add_section (contract : Contract) (page_num : Z)
    (page_text : string) (sections : list (string * string * nat))
    (acc : list NewClause * nat) (section : string * string * nat)
    : list NewClause * nat :=
  let '(section_num, section_title, position) := section in
  let section_text := _extract_section_text page_text position sections in
  let clause_dicts := split_into_clauses section_text (Some section_num) in
  add_clause_dicts contract section_num section_title page_num clause_dicts acc.

Definition add_page (contract : Contract) (acc : list NewClause * nat)
    (page : Z * string) : list NewClause * nat :=
  let '(page_num, page_text) := page in
  let sections := page_sections page_text in
  fold_left (add_section contract page_num page_text sections) sections acc.

Definition collect_clauses (contract : Contract) (pages : list (Z * string))
    : list NewClause :=
  fst (fold_left (add_page contract) pages ([], 0%nat)).

Section Enhance.
(** The optional embedding model on a batch of texts: [None] when the
    model is absent or [encode] raises. *)
Variable encode_batch : list string -> option (list (list R)).

Definition enhance (clause : NewClause) (embedding : option (list R))
    : NewClause :=
  mk_NewClause (nc_contract_id clause) (nc_section_number clause)
               (nc_clause_path clause) (nc_title clause) (nc_text clause)
               (nc_normalized_text clause)
               (_refine_clause_type (nc_text clause) (nc_clause_type clause))
               (nc_page_number clause) (nc_position_in_document clause)
               embedding.

(** [for clause, embedding in zip(clauses, embeddings)]: clauses beyond
    the shorter list are not touched. *)
Fixpoint enhance_zip (clauses : list NewClause)
    (embeddings : list (option (list R))) : list NewClause :=
  match clauses, embeddings with
  | clause :: cs, embedding :: es => enhance clause embedding :: enhance_zip cs es
  | _, _ => clauses
  end.

Definition _enhance_clauses (clauses : list NewClause) : list NewClause :=
  let embeddings :=
    match encode_batch (map nc_text clauses) with
    | Some vectors => map Some vectors
    | None => repeat None (List.length clauses)
    end in
  enhance_zip clauses embeddings.

(** [session.add(clause)] for each clause, then [commit]: the rows get
    consecutive primary keys after the largest one in use. *)
Definition next_clause_id (s : Session) : Z :=
  fold_left (fun m cl => Z.max m (clause_id cl + 1)) (db_clauses s) 1%Z.

Definition to_row (i : Z) (c : NewClause) : Clause :=
  mk_Clause i (nc_contract_id c) (Some (nc_section_number c)) (nc_text c)
            (nc_clause_type c) (nc_embedding_vector c)
            (Some (nc_page_number c)).

Fixpoint rows_from (i : Z) (cs : list NewClause) : list Clause :=
  match cs with
  | [] => []
  | c :: rest => to_row i c :: rows_from (i + 1) rest
  end.

(** [extract_from_contract], from the pages that [DocumentParser.parse]
    returned (page number and text, in order). *)
Definition extract_from_contract (s : Session) (contract : Contract)
    (pages : list (Z * string)) : Session * list NewClause :=
  let all_clauses := collect_clauses contract pages in
  let all_clauses := _enhance_clauses all_clauses in
  (mk_Session (db_contracts s)
              (db_clauses s ++ rows_from (next_clause_id s) all_clauses)%list
              (db_conflicts s) (db_question_answers s),
   all_clauses).

End Enhance.

End Extraction.

(** What [_create_clause] guarantees for a clause of [contract]. *)
Definition created_for (contract : Contract) (c : Extraction.NewClause)
    : Prop :=
  Extraction.nc_contract_id c = contract_id contract
  /\ Extraction.nc_normalized_text c
     = ClauseExtractor._normalize_text (Extraction.nc_text c)
  /\ Extraction.nc_text c <> ""
  /\ Extraction.nc_clause_type c
     = ClauseExtractor._map_clause_type
         (ClauseIdentifier._estimate_clause_type (Extraction.nc_text c))
  /\ Extraction.nc_embedding_vector c = None.

(** The state of the collecting loops: the running position is the
    number of clauses made so far, which carry the positions 0, 1, ... *)
Definition collected (contract : Contract)
    (acc : list Extraction.NewClause * nat) : Prop :=
  snd acc = List.length (fst acc)
  /\ map Extraction.nc_position_in_document (fst acc)
     = seq 0 (List.length (fst acc))
  /\ Forall (created_for contract) (fst acc).

(* ================================================================== *)
(** * Properties *)
(* ================================================================== *)

(** ** Comparisons of scores *)

Lemma Qgtb_true (a b : Q) : Qgtb a b = true <-> b < a.
Proof.
  unfold Qgtb. rewrite negb_true_iff, <- not_true_iff_false, Qle_bool_iff.
  split; [apply Qnot_le_lt | apply Qlt_not_le].
Qed.

Lemma Qgtb_false (a b : Q) : Qgtb a b = false <-> a <= b.
Proof.
  unfold Qgtb. rewrite negb_false_iff. apply Qle_bool_iff.
Qed.

(** ** Clause segmentation *)

Module ClauseIdentifierFacts.
Import PyStr ClauseIdentifier Examples.

(** The exclusion keywords are tried before every other set. *)
Lemma exclusion_checked_first (text : string) :
  any_in EXCLUSION_KEYWORDS (lower text) = true ->
  _estimate_clause_type text = "EXCLUSION".
Proof.
  intros H. unfold _estimate_clause_type. now rewrite H.
Qed.

Lemma liable_sentence_keywords :
  let t := lower "(b) Party shall not be liable for delays." in
  any_in EXCLUSION_KEYWORDS t = true
  /\ any_in OBLIGATION_KEYWORDS t = true
  /\ any_in LIABILITY_KEYWORDS t = true.
Proof. repeat split; reflexivity. Qed.

(** C7: segmenting the two-item section text yields exactly two clauses,
    numbered 1 and 2; the first is estimated OBLIGATION and the second
    EXCLUSION, although the second also contains the liability keyword
    "liable" and the obligation keyword "shall". *)
Theorem split_pay_and_liable (section_info : option string) :
  split_into_clauses pay_and_liable section_info =
    [ mk_clause_dict "(a) Party shall pay within 30 days." 1
                     (section_number_of section_info) "OBLIGATION";
      mk_clause_dict "(b) Party shall not be liable for delays." 2
                     (section_number_of section_info) "EXCLUSION" ].
Proof. destruct section_info; reflexivity. Qed.

End ClauseIdentifierFacts.

(** ** Text normalisation *)

Module ClauseExtractorFacts.
Import PyStr ClauseExtractor.

Lemma all_chars_app (p : ascii -> bool) (a b : string) :
  all_chars p (a ++ b) = all_chars p a && all_chars p b.
Proof.
  induction a as [| c a IH]; simpl; [reflexivity |].
  now rewrite IH, andb_assoc.
Qed.

Lemma all_chars_rev_aux (p : ascii -> bool) (s acc : string) :
  all_chars p (rev_string_aux s acc) = all_chars p s && all_chars p acc.
Proof.
  revert acc; induction s as [| c s IH]; intros acc; simpl; [reflexivity |].
  rewrite IH; simpl. now destruct (p c), (all_chars p s), (all_chars p acc).
Qed.

Lemma all_chars_rev (p : ascii -> bool) (s : string) :
  all_chars p (rev_string s) = all_chars p s.
Proof.
  unfold rev_string. rewrite all_chars_rev_aux; simpl. apply andb_true_r.
Qed.

(** The words of [split] contain no whitespace. *)
Lemma split_ws_aux_words (s cur : string) :
  all_chars (fun c => negb (isspace c)) cur = true ->
  Forall (fun w => all_chars (fun c => negb (isspace c)) w = true)
         (split_ws_aux s cur).
Proof.
  revert cur; induction s as [| c s IH]; intros cur H; simpl.
  - destruct cur; constructor; [now rewrite all_chars_rev | constructor].
  - destruct (isspace c) eqn:E.
    + destruct cur; [now apply IH |].
      constructor; [now rewrite all_chars_rev | now apply IH].
    + apply IH. simpl. now rewrite E.
Qed.

Lemma join_space_chars (words : list string) :
  Forall (fun w => all_chars (fun c => negb (isspace c)) w = true) words ->
  all_chars collapsed_char (join " " words) = true.
Proof.
  assert (W : forall w, all_chars (fun c => negb (isspace c)) w = true ->
                        all_chars collapsed_char w = true).
  { induction w as [| c w IH]; simpl; [reflexivity |].
    rewrite andb_true_iff. intros [Hc Hw]. unfold collapsed_char at 1.
    now rewrite Hc, IH. }
  induction 1 as [| w words Hw Hws IH]; simpl; [reflexivity |].
  destruct words as [| w' words]; [now apply W |].
  rewrite all_chars_app, (W w Hw). exact IH.
Qed.

Lemma normal_after_blanking (c : ascii) :
  collapsed_char c = true ->
  normal_char (if isalnum (lower_char c) || isspace (lower_char c)
               then lower_char c else " "%char) = true.
Proof.
  destruct c as [[] [] [] [] [] [] [] []]; vm_compute; congruence.
Qed.

Lemma blank_lower_chars (s : string) :
  all_chars collapsed_char s = true ->
  all_chars normal_char (blank_specials (lower s)) = true.
Proof.
  induction s as [| c s IH]; simpl; [reflexivity |].
  rewrite andb_true_iff. intros [Hc Hs].
  now rewrite (normal_after_blanking c Hc), IH.
Qed.

(** The part of the normal form that does hold: only lower-case letters,
    digits and spaces are left. *)
Lemma normalize_text_chars (text : string) :
  all_chars normal_char (_normalize_text text) = true.
Proof.
  unfold _normalize_text. apply blank_lower_chars, join_space_chars.
  now apply split_ws_aux_words.
Qed.

(** C1: the special characters are blanked after the whitespace has been
    collapsed, so a punctuation mark next to a space leaves two spaces in
    the output and a second application changes the text again; on the
    input of the unit test [test_text_normalization] the result keeps a
    trailing space that the test does not expect. *)
Theorem normalize_text_not_idempotent :
  _normalize_text "a, b" = "a  b"
  /\ _normalize_text (_normalize_text "a, b") = "a b"
  /\ _normalize_text (_normalize_text "a, b") <> _normalize_text "a, b"
  /\ _normalize_text "  This   is  a   TEST!  " = "this is a test "
  /\ _normalize_text "  This   is  a   TEST!  " <> "this is a test".
Proof. repeat split; try reflexivity; discriminate. Qed.

End ClauseExtractorFacts.

(** ** Contradiction score and conflict records *)

Module ConflictDetectorFacts.
Import PyStr ConflictDetector Examples.

(** C9: the contradiction score does not depend on the order of the two
    texts. *)
Theorem check_contradiction_sym (text1 text2 : string) :
  _check_contradiction text1 text2 = _check_contradiction text2 text1.
Proof.
  unfold _check_contradiction.
  rewrite (orb_comm (any_in obligations (lower text1)
                     && any_in prohibitions (lower text2))).
  rewrite (andb_comm (any_in prohibitions (lower text1))).
  rewrite (andb_comm (any_in obligations (lower text1))).
  replace (Z.abs (negation_count (lower text1) - negation_count (lower text2)))
    with (Z.abs (negation_count (lower text2) - negation_count (lower text1)))
    by lia.
  reflexivity.
Qed.

(** The four values of the score. *)
Lemma check_contradiction_values (text1 text2 : string) :
  _check_contradiction text1 text2 == 0
  \/ _check_contradiction text1 text2 == 3 # 10
  \/ _check_contradiction text1 text2 == 7 # 10
  \/ _check_contradiction text1 text2 == 1.
Proof.
  unfold _check_contradiction.
  destruct (_ || _); destruct (_ <=? _)%Z.
  - right; right; right. reflexivity.
  - right; right; left. reflexivity.
  - right; left. reflexivity.
  - left. reflexivity.
Qed.

Lemma cosine_nil_l (v : list R) : _cosine_similarity [] v = 0%R.
Proof. reflexivity. Qed.

Lemma cosine_nil_r (v : list R) : _cosine_similarity v [] = 0%R.
Proof. destruct v; reflexivity. Qed.

Lemma cosine_unit : _cosine_similarity [1%R] [1%R] = 1%R.
Proof.
  unfold _cosine_similarity, cosine_loop; simpl.
  destruct (Rle_dec (0 + 1 * 1) 0) as [H | _]; [exfalso; lra |].
  replace ((0 + 1 * 1) * (0 + 1 * 1))%R with 1%R by ring.
  rewrite sqrt_1. lra.
Qed.

(** What [_check_clause_conflict] returns once both vectors are there and
    similar enough. *)
Lemma check_clause_conflict_similar
    (cfg : Config) (c1 c2 : Clause) (kind : string) (v1 v2 : list R) :
  clause_embedding_vector c1 = Some v1 ->
  clause_embedding_vector c2 = Some v2 ->
  (0 <= SIMILARITY_THRESHOLD cfg)%R ->
  (SIMILARITY_THRESHOLD cfg < _cosine_similarity v1 v2)%R ->
  let score := _check_contradiction (clause_text c1) (clause_text c2) in
  _check_clause_conflict cfg c1 c2 kind =
    if Qgtb score (CONFLICT_THRESHOLD cfg) then
      Some (mk_Conflict None (clause_id c1) (clause_id c2) kind
              (_generate_conflict_description c1 c2 kind score)
              (_assess_conflict_severity (clause_type c1) score) score false)
    else None.
Proof.
  intros E1 E2 Hthr Hsim score.
  unfold _check_clause_conflict, usable_embedding. rewrite E1, E2.
  destruct v1 as [|a v1]; [rewrite cosine_nil_l in Hsim; lra |].
  destruct v2 as [|b v2]; [rewrite cosine_nil_r in Hsim; lra |].
  destruct (Rlt_dec _ _) as [_ | N]; [reflexivity | contradiction].
Qed.

(** A recorded conflict carries the contradiction score of its two texts,
    and that score exceeds the conflict threshold. *)
Lemma check_clause_conflict_Some
    (cfg : Config) (c1 c2 : Clause) (kind : string) (k : Conflict) :
  _check_clause_conflict cfg c1 c2 kind = Some k ->
  conflict_confidence_score k
    = _check_contradiction (clause_text c1) (clause_text c2)
  /\ CONFLICT_THRESHOLD cfg < conflict_confidence_score k
  /\ conflict_type k = kind
  /\ conflict_clause_id k = clause_id c1
  /\ conflicting_clause_id k = clause_id c2.
Proof.
  unfold _check_clause_conflict.
  destruct (usable_embedding c1); [| discriminate].
  destruct (usable_embedding c2); [| discriminate].
  destruct (Rlt_dec _ _); [| discriminate].
  destruct (Qgtb _ _) eqn:G; [| discriminate].
  intros [= <-]; simpl. apply Qgtb_true in G. tauto.
Qed.

Lemma check_pairs_In (cfg : Config) (pairs : list (Clause * Clause))
    (kind : string) (k : Conflict) :
  In k (check_pairs cfg pairs kind) <->
  exists c1 c2, In (c1, c2) pairs
                /\ _check_clause_conflict cfg c1 c2 kind = Some k.
Proof.
  induction pairs as [| [a b] rest IH]; simpl.
  - split; [tauto | intros (? & ? & [] & _)].
  - destruct (_check_clause_conflict cfg a b kind) as [k0|] eqn:E; simpl;
      rewrite IH; split.
    + intros [<- | (c1 & c2 & Hin & Hc)]; eauto 6.
    + intros (c1 & c2 & [[= <- <-] | Hin] & Hc); [left; congruence | eauto 6].
    + intros (c1 & c2 & Hin & Hc); eauto 6.
    + intros (c1 & c2 & [[= <- <-] | Hin] & Hc); [congruence | eauto 6].
Qed.

Lemma number_from_scores (i : Z) (ks : list Conflict) :
  map conflict_confidence_score (number_from i ks)
    = map conflict_confidence_score ks.
Proof.
  revert i; induction ks as [| k ks IH]; intros i; simpl; [easy |].
  now rewrite IH.
Qed.

Lemma deliver_score : _check_contradiction deliver not_deliver == 1.
Proof. reflexivity. Qed.

(** C3: for the "shall deliver" / "shall not deliver" pair, once both
    clauses carry vectors whose cosine exceeds the similarity threshold,
    the contradiction score is at least 0.7 (it is 1.0) and a conflict is
    produced; its severity is CRITICAL when the first clause has one of
    the critical types and HIGH for every other type. *)
Theorem deliver_pair_conflict
    (cfg : Config) (c1 c2 : Clause) (kind : string) (v1 v2 : list R) :
  clause_text c1 = deliver ->
  clause_text c2 = not_deliver ->
  clause_embedding_vector c1 = Some v1 ->
  clause_embedding_vector c2 = Some v2 ->
  (0 <= SIMILARITY_THRESHOLD cfg)%R ->
  (SIMILARITY_THRESHOLD cfg < _cosine_similarity v1 v2)%R ->
  CONFLICT_THRESHOLD cfg < 1 ->
  7 # 10 <= _check_contradiction (clause_text c1) (clause_text c2)
  /\ exists k,
       _check_clause_conflict cfg c1 c2 kind = Some k
       /\ conflict_confidence_score k == 1
       /\ conflict_clause_id k = clause_id c1
       /\ conflicting_clause_id k = clause_id c2
       /\ conflict_severity k =
            match clause_type c1 with
            | LIABILITY | TERMINATION | INDEMNIFICATION | PAYMENT => CRITICAL
            | _ => HIGH
            end.
Proof.
  intros T1 T2 E1 E2 Hthr Hsim Hconf.
  split; [rewrite T1, T2, deliver_score; discriminate |].
  rewrite (check_clause_conflict_similar cfg c1 c2 kind v1 v2 E1 E2 Hthr Hsim).
  rewrite T1, T2.
  assert (G : Qgtb (_check_contradiction deliver not_deliver)
                   (CONFLICT_THRESHOLD cfg) = true)
    by (apply Qgtb_true; now rewrite deliver_score).
  rewrite G. eexists; split; [reflexivity |]; simpl.
  split; [apply deliver_score |].
  split; [reflexivity |]. split; [reflexivity |].
  destruct (clause_type c1); reflexivity.
Qed.

Lemma deliver_clauses_similar :
  (SIMILARITY_THRESHOLD Config_default
    < _cosine_similarity [1%R] [1%R])%R.
Proof. rewrite cosine_unit; simpl; lra. Qed.

Lemma deliver_clauses_conflict :
  exists k,
    _check_clause_conflict Config_default deliver_clause not_deliver_clause
                           "CONTRADICTION" = Some k.
Proof.
  rewrite (check_clause_conflict_similar Config_default deliver_clause
             not_deliver_clause "CONTRADICTION" [1%R] [1%R]);
    try reflexivity.
  - simpl. eexists; reflexivity.
  - simpl; lra.
  - apply deliver_clauses_similar.
Qed.

Lemma deliver_pair_conflict_witness :
  7 # 10 <= _check_contradiction deliver not_deliver
  /\ exists k,
       _check_clause_conflict Config_default deliver_clause not_deliver_clause
                              "CONTRADICTION" = Some k
       /\ conflict_confidence_score k == 1
       /\ conflict_clause_id k = 1%Z
       /\ conflicting_clause_id k = 2%Z
       /\ conflict_severity k = CRITICAL.
Proof.
  apply (deliver_pair_conflict Config_default deliver_clause not_deliver_clause
           "CONTRADICTION" [1%R] [1%R]); try reflexivity.
  - simpl; lra.
  - apply deliver_clauses_similar.
Defined.

Lemma score_above_default (q : Q) :
  (q == 0 \/ q == 3 # 10 \/ q == 7 # 10 \/ q == 1) ->
  CONFLICT_THRESHOLD Config_default < q ->
  q == 7 # 10 \/ q == 1.
Proof.
  simpl. intros [H | [H | [H | H]]] L; rewrite H in L; auto;
    exfalso; revert L; apply Qle_not_lt; discriminate.
Qed.

(** C10: the contradiction score is one of 0, 0.3, 0.7 and 1.0; with the
    default conflict threshold 0.3 a conflict returned by
    [_check_clause_conflict], and hence every conflict recorded by
    [detect_conflicts], has confidence 0.7 or 1.0. *)
Theorem contradiction_score_values :
  (forall text1 text2 : string,
      _check_contradiction text1 text2 == 0
      \/ _check_contradiction text1 text2 == 3 # 10
      \/ _check_contradiction text1 text2 == 7 # 10
      \/ _check_contradiction text1 text2 == 1)
  /\ (forall (c1 c2 : Clause) (kind : string) (k : Conflict),
         _check_clause_conflict Config_default c1 c2 kind = Some k ->
         conflict_confidence_score k == 7 # 10
         \/ conflict_confidence_score k == 1)
  /\ (forall (s s' : Session) (cid : Z) (recorded : list Conflict) (k : Conflict),
         detect_conflicts Config_default s cid = Ok (s', recorded) ->
         In k recorded ->
         conflict_confidence_score k == 7 # 10
         \/ conflict_confidence_score k == 1).
Proof.
  assert (One : forall c1 c2 kind k,
             _check_clause_conflict Config_default c1 c2 kind = Some k ->
             conflict_confidence_score k == 7 # 10
             \/ conflict_confidence_score k == 1).
  { intros c1 c2 kind k H.
    destruct (check_clause_conflict_Some _ _ _ _ _ H) as (E & L & _).
    apply score_above_default; [rewrite E; apply check_contradiction_values | exact L]. }
  assert (Many : forall pairs kind k,
             In k (check_pairs Config_default pairs kind) ->
             conflict_confidence_score k == 7 # 10
             \/ conflict_confidence_score k == 1).
  { intros pairs kind k H. apply check_pairs_In in H.
    destruct H as (c1 & c2 & _ & H). eapply One; eauto. }
  split; [exact check_contradiction_values |]. split; [exact One |].
  intros s s' cid recorded k H Hin.
  unfold detect_conflicts in H.
  destruct (contract_by_id s cid) as [contract|]; [| discriminate].
  destruct (_detect_version_conflicts Config_default s contract)
    as [vs|] eqn:V; [| discriminate].
  unfold save_conflicts in H. injection H as _ <-.
  apply (in_map conflict_confidence_score) in Hin.
  rewrite number_from_scores in Hin.
  apply in_map_iff in Hin. destruct Hin as (k0 & <- & Hin).
  unfold _detect_version_conflicts in V.
  destruct (first_token (contract_name contract)) as [tok |];
    [| discriminate].
  destruct (other_versions s contract tok); [| discriminate].
  injection V as <-.
  apply in_app_or in Hin. destruct Hin as [Hin | Hin]; [| eapply Many; eauto].
  destruct (has_parent_link contract).
  - apply in_app_or in Hin. destruct Hin as [Hin | Hin].
    + eapply Many; eauto.
    + unfold _detect_parent_conflicts in Hin.
      destruct (parent_contract s contract); [eapply Many; eauto | destruct Hin].
  - eapply Many; eauto.
Qed.

Lemma contradiction_score_values_witness :
  exists k,
    _check_clause_conflict Config_default deliver_clause not_deliver_clause
                           "CONTRADICTION" = Some k
    /\ (conflict_confidence_score k == 7 # 10
        \/ conflict_confidence_score k == 1).
Proof.
  destruct deliver_clauses_conflict as (k & E).
  exists k; split; [exact E |].
  exact (proj1 (proj2 contradiction_score_values)
               deliver_clause not_deliver_clause "CONTRADICTION" k E).
Defined.

End ConflictDetectorFacts.

(** ** The version scan *)

Module VersionScanFacts.
Import PyStr ConflictDetector Examples.

Lemma ClauseType_eqb_eq (a b : ClauseType) :
  ClauseType_eqb a b = true <-> a = b.
Proof. destruct a, b; simpl; split; congruence. Qed.

Lemma in_clauses_of (s : Session) (c : Contract) (cl : Clause) :
  In cl (clauses_of s c) <->
  In cl (db_clauses s) /\ clause_contract_id cl = contract_id c.
Proof. unfold clauses_of. rewrite filter_In, Z.eqb_eq. tauto. Qed.

(** *** The comparison of names *)

Lemma any_suffix_ext (f g : string -> bool) (t : string) :
  (forall u, f u = g u) -> Sqlite.any_suffix f t = Sqlite.any_suffix g t.
Proof.
  intros E. induction t as [| c t IH]; simpl; rewrite E; [reflexivity |].
  now rewrite IH.
Qed.

Lemma any_suffix_end (t : string) :
  Sqlite.any_suffix (Sqlite.like_match "") t = true.
Proof. induction t as [| c t IH]; simpl; [reflexivity | exact IH]. Qed.

Lemma c_text_plain (tok rest : string) :
  plain_token tok = true ->
  Sqlite.c_text (tok ++ rest) = tok ++ Sqlite.c_text rest.
Proof.
  induction tok as [| a tok IH]; simpl; [reflexivity |].
  unfold plain_token; simpl. rewrite andb_true_iff, negb_true_iff.
  rewrite !orb_false_iff. intros ((_ & Z0) & H).
  rewrite Z0. f_equal. now apply IH.
Qed.

(** A token without special characters, followed by a percent sign,
    matches the texts that begin with it, letter case apart. *)
Lemma like_match_plain_prefix (tok t : string) :
  plain_token tok = true ->
  Sqlite.like_match (tok ++ "%") t = startswith (lower t) (lower tok).
Proof.
  revert t; induction tok as [| a tok IH]; intros t.
  - intros _. cbn [append lower]. 
    replace (Sqlite.like_match "%" t)
      with (Sqlite.any_suffix (Sqlite.like_match "") t) by reflexivity.
    rewrite any_suffix_end. now destruct (lower t).
  - unfold plain_token; cbn [all_chars append lower].
    rewrite andb_true_iff, negb_true_iff, !orb_false_iff.
    intros (((P & U) & _) & H).
    cbn [Sqlite.like_match]. rewrite P, U.
    destruct t as [| c t]; [reflexivity |].
    cbn [lower startswith orb]. now rewrite (IH t H).
Qed.

Lemma any_suffix_startswith (q t : string) :
  Sqlite.any_suffix (fun u => startswith (lower u) q) t
    = contains (lower t) q.
Proof.
  induction t as [| c t IH]; simpl.
  - now rewrite orb_false_r.
  - now rewrite IH.
Qed.

(** For a token without percent sign, underscore and NUL the version
    query selects the names that contain the token, letter case apart. *)
Lemma name_like_plain (name tok : string) :
  plain_token tok = true ->
  name_like name tok = contains (lower (Sqlite.c_text name)) (lower tok).
Proof.
  intros H. unfold name_like, contains_pattern.
  replace (Sqlite.c_text ("%" ++ tok ++ "%")) with ("%" ++ tok ++ "%")
    by (cbn [append Sqlite.c_text Ascii.eqb Bool.eqb Ascii.zero];
        f_equal; now rewrite (c_text_plain tok "%" H)).
  replace (Sqlite.like_match ("%" ++ tok ++ "%") (Sqlite.c_text name))
    with (Sqlite.any_suffix (Sqlite.like_match (tok ++ "%"))
                            (Sqlite.c_text name)) by reflexivity.
  rewrite (any_suffix_ext _ (fun u => startswith (lower u) (lower tok)))
    by (intros u; now apply like_match_plain_prefix).
  apply any_suffix_startswith.
Qed.

(** Letter case is ignored and an underscore in the token stands for any
    character. *)
Lemma name_like_samples :
  name_like "master service terms" "Service" = true
  /\ name_like "AxB Contract" "A_B" = true
  /\ name_like "Supply Agreement" "Service" = false.
Proof. repeat split. Qed.

(** *** The query *)

Lemma contains_pattern_length (tok : string) :
  String.length (contains_pattern tok) = (String.length tok + 2)%nat.
Proof.
  unfold contains_pattern. cbn [append String.length]. f_equal.
  induction tok as [| a tok IH]; simpl; [reflexivity | now rewrite IH].
Qed.

Lemma like_within_limit (text pattern : string) :
  (Z.of_nat (String.length pattern) <= Sqlite.MAX_LIKE_PATTERN_LENGTH)%Z ->
  Sqlite.like text pattern
    = Ok (Sqlite.like_match (Sqlite.c_text pattern) (Sqlite.c_text text)).
Proof.
  intros H. unfold Sqlite.like.
  now replace (_ <? _)%Z with false by (symmetry; apply Z.ltb_ge; exact H).
Qed.


(** the rows selected for [tok] when the pattern is within the limit *)
Lemma other_versions_within_limit (s : Session) (contract : Contract)
    (tok : string) :
  (Z.of_nat (String.length tok) + 2 <= Sqlite.MAX_LIKE_PATTERN_LENGTH)%Z ->
  other_versions s contract tok
    = Ok (filter
            (fun other =>
               negb (contract_id other =? contract_id contract)%Z
               && name_like (contract_name other) tok)
            (db_contracts s)).
Proof.
  intros H. unfold other_versions.
  assert (L : (Z.of_nat (String.length (contains_pattern tok))
               <= Sqlite.MAX_LIKE_PATTERN_LENGTH)%Z)
    by (rewrite contains_pattern_length; lia).
  induction (db_contracts s) as [| other rest IH]; [reflexivity |].
  cbn [other_versions_scan filter].
  destruct (contract_id other =? contract_id contract)%Z; [exact IH |].
  rewrite (like_within_limit _ _ L), IH. reflexivity.
Qed.


Lemma other_versions_scan_incl (rows : list Contract) (contract : Contract)
    (pattern : string) (found : list Contract) :
  other_versions_scan rows contract pattern = Ok found -> incl found rows.
Proof.
  revert found; induction rows as [| other rest IH]; intros found; simpl.
  - intros [= <-]. apply incl_refl.
  - destruct (contract_id other =? contract_id contract)%Z.
    + intros H. apply incl_tl. now apply IH.
    + destruct (Sqlite.like _ _) as [m |]; [| discriminate].
      destruct (other_versions_scan rest contract pattern) as [l |];
        [| discriminate].
      intros [= <-]. specialize (IH l eq_refl).
      destruct m; [apply incl_cons; [now left | now apply incl_tl]
                  | now apply incl_tl].
Qed.

(** What a successful scan returns. *)
Lemma detect_version_conflicts_Ok (cfg : Config) (s : Session)
    (contract : Contract) (vs : list Conflict) :
  _detect_version_conflicts cfg s contract = Ok vs ->
  exists other_contracts,
    incl other_contracts (db_contracts s)
    /\ vs = check_pairs cfg (version_pairs s contract other_contracts)
                        "VERSION_CONFLICT".
Proof.
  unfold _detect_version_conflicts.
  destruct (first_token (contract_name contract)) as [tok |]; [| discriminate].
  destruct (other_versions s contract tok) as [found |] eqn:E;
    [| discriminate].
  intros [= <-]. exists found. split; [| reflexivity].
  now apply other_versions_scan_incl in E.
Qed.

(** A contract whose name has no token cannot be scanned at all. *)
Lemma version_scan_blank_name (cfg : Config) (s : Session) (c : Contract) :
  split_ws (contract_name c) = [] ->
  _detect_version_conflicts cfg s c = Raise IndexError.
Proof.
  intros H. unfold _detect_version_conflicts, first_token. now rewrite H.
Qed.

(** C4 (as stated, refuted): the clause of "Service Agreement" is compared
    with the clause of "Services Addendum", a contract none of whose name
    tokens is "Service". *)
Lemma version_scan_compares_unshared_name :
  first_token (contract_name service_contract) = Ok "Service"
  /\ other_versions version_session service_contract "Service"
     = Ok [services_addendum]
  /\ In (service_clause, addendum_clause)
        (version_pairs version_session service_contract [services_addendum])
  /\ ~ (exists other,
           In other (db_contracts version_session)
           /\ contract_id other <> contract_id service_contract
           /\ shares_first_token (contract_name service_contract)
                                 (contract_name other)
           /\ In addendum_clause (clauses_of version_session other)).
Proof.
  split; [reflexivity |]. split; [reflexivity |]. split; [left; reflexivity |].
  intros (other & Hin & Hid & (tok & Htok & Hshare) & _).
  injection Htok as <-.
  destruct Hin as [<- | [<- | []]].
  - now apply Hid.
  - vm_compute in Hshare. destruct Hshare as [H | [H | []]]; discriminate.
Qed.

(** C4 (amended): when the contract's name has a first token, short enough
    for the pattern built from it to be accepted by the database, the scan
    checks exactly the pairs made of a clause of the contract and a clause
    of the same type belonging to another contract (different id) whose
    name matches the pattern "%token%" under LIKE; for a token without
    percent sign, underscore and NUL these are the names that contain the
    token as a substring, the case of ASCII letters being ignored. *)
Theorem version_scan_pairs
    (cfg : Config) (s : Session) (contract : Contract) (tok : string) :
  first_token (contract_name contract) = Ok tok ->
  (Z.of_nat (String.length tok) + 2 <= Sqlite.MAX_LIKE_PATTERN_LENGTH)%Z ->
  exists pairs : list (Clause * Clause),
    _detect_version_conflicts cfg s contract
      = Ok (check_pairs cfg pairs "VERSION_CONFLICT")
    /\ (forall c1 c2 : Clause,
          In (c1, c2) pairs <->
          In c1 (clauses_of s contract)
          /\ exists other,
               In other (db_contracts s)
               /\ contract_id other <> contract_id contract
               /\ name_like (contract_name other) tok = true
               /\ In c2 (clauses_of s other)
               /\ clause_type c1 = clause_type c2)
    /\ (plain_token tok = true ->
        forall name : string,
          name_like name tok
            = contains (lower (Sqlite.c_text name)) (lower tok)).
Proof.
  intros Htok Hlen.
  eexists. split; [| split].
  - unfold _detect_version_conflicts.
    rewrite Htok, (other_versions_within_limit s contract tok Hlen).
    reflexivity.
  - intros c1 c2. unfold version_pairs. rewrite in_flat_map. split.
    + intros (other & Hother & H).
      apply in_flat_map in H. destruct H as (c1' & Hc1 & H).
      apply in_map_iff in H. destruct H as (c2' & [= -> ->] & H).
      apply filter_In in H. destruct H as (Hc2 & Hty).
      apply filter_In in Hother. destruct Hother as (Ho & Hsel).
      apply andb_true_iff in Hsel. destruct Hsel as (Hid & Hlike).
      apply negb_true_iff, Z.eqb_neq in Hid.
      apply ClauseType_eqb_eq in Hty.
      split; [assumption |]. exists other. tauto.
    + intros (Hc1 & other & Ho & Hid & Hlike & Hc2 & Hty).
      exists other. split.
      * apply filter_In. split; [assumption |].
        apply andb_true_iff. split; [| assumption].
        now apply negb_true_iff, Z.eqb_neq.
      * apply in_flat_map. exists c1. split; [assumption |].
        apply in_map_iff. exists c2. split; [reflexivity |].
        apply filter_In. split; [assumption |]. now apply ClauseType_eqb_eq.
  - intros Hplain name. now apply name_like_plain.
Qed.

Lemma version_scan_pairs_witness :
  exists pairs : list (Clause * Clause),
    _detect_version_conflicts Config_default version_session service_contract
      = Ok (check_pairs Config_default pairs "VERSION_CONFLICT")
    /\ (forall c1 c2 : Clause,
          In (c1, c2) pairs <->
          In c1 (clauses_of version_session service_contract)
          /\ exists other,
               In other (db_contracts version_session)
               /\ contract_id other <> contract_id service_contract
               /\ name_like (contract_name other) "Service" = true
               /\ In c2 (clauses_of version_session other)
               /\ clause_type c1 = clause_type c2)
    /\ (plain_token "Service" = true ->
        forall name : string,
          name_like name "Service"
            = contains (lower (Sqlite.c_text name)) (lower "Service")).
Proof.
  apply (version_scan_pairs Config_default version_session service_contract
                            "Service").
  - reflexivity.
  - vm_compute. discriminate.
Defined.

End VersionScanFacts.

(** ** Sorting and slicing *)

Section StableSortFacts.
Context {A : Type}.
Variable key : A -> R.

Lemma insert_desc_perm (x : A) (l : list A) :
  Permutation (insert_desc key x l) (x :: l).
Proof.
  induction l as [| y l IH]; simpl; [reflexivity |].
  destruct (Rlt_dec (key x) (key y)); [| reflexivity].
  rewrite IH. apply perm_swap.
Qed.

Lemma sort_desc_perm (l : list A) : Permutation (sort_desc key l) l.
Proof.
  induction l as [| x l IH]; simpl; [reflexivity |].
  rewrite insert_desc_perm. now constructor.
Qed.

Lemma insert_desc_descending (x : A) (l : list A) :
  descending key l -> descending key (insert_desc key x l).
Proof.
  unfold descending.
  induction l as [| y l IH]; simpl; intros H.
  - repeat constructor.
  - apply StronglySorted_inv in H. destruct H as (Hl & Hy).
    destruct (Rlt_dec (key x) (key y)) as [Lt | Ge].
    + constructor; [auto |].
      apply (Permutation_Forall (x := x :: l));
        [symmetry; apply insert_desc_perm |].
      constructor; [lra | assumption].
    + constructor; [constructor; assumption |].
      constructor; [lra |].
      eapply Forall_impl; [| exact Hy]. simpl; intros; lra.
Qed.

Lemma sort_desc_descending (l : list A) : descending key (sort_desc key l).
Proof.
  induction l as [| x l IH]; simpl.
  - constructor.
  - now apply insert_desc_descending.
Qed.

(** Inserting never moves an element past one with the same key. *)
Lemma insert_desc_with_key (r : R) (x : A) (l : list A) :
  with_key key r (insert_desc key x l) = with_key key r (x :: l).
Proof.
  unfold with_key.
  induction l as [| y l IH]; simpl; [reflexivity |].
  destruct (Rlt_dec (key x) (key y)) as [Lt | Ge]; [| reflexivity].
  simpl in *. rewrite IH.
  destruct (Req_dec_T (key x) r) as [Ex |], (Req_dec_T (key y) r) as [Ey |];
    try reflexivity.
  exfalso; lra.
Qed.

Lemma sort_desc_stable (r : R) (l : list A) :
  with_key key r (sort_desc key l) = with_key key r l.
Proof.
  induction l as [| x l IH]; simpl; [reflexivity |].
  rewrite insert_desc_with_key. unfold with_key in *; simpl. now rewrite IH.
Qed.

Lemma descending_firstn (n : nat) (l : list A) :
  descending key l -> descending key (firstn n l).
Proof.
  unfold descending. revert n.
  induction l as [| x l IH]; intros [| n] H; simpl; try constructor.
  - apply IH. now apply StronglySorted_inv in H.
  - apply StronglySorted_inv in H. destruct H as (_ & H).
    rewrite Forall_forall in *. intros y Hy. apply H.
    rewrite <- (firstn_skipn n l). apply in_or_app. now left.
Qed.

End StableSortFacts.

(** Equal keys keep their order, larger keys move to the front. *)
Lemma sort_desc_ties :
  sort_desc snd [("a", 1%R); ("b", 2%R); ("c", 1%R); ("d", 2%R)]
    = [("b", 2%R); ("d", 2%R); ("a", 1%R); ("c", 1%R)].
Proof.
  unfold sort_desc; simpl.
  repeat (destruct (Rlt_dec _ _); try (exfalso; lra); simpl).
  reflexivity.
Qed.

Lemma py_slice_to_nonneg {A : Type} (l : list A) (k : Z) :
  (0 <= k)%Z -> py_slice_to l k = firstn (Z.to_nat k) l.
Proof.
  intros H. unfold py_slice_to. now apply Z.leb_le in H as ->.
Qed.

Lemma py_slice_to_incl {A : Type} (l : list A) (k : Z) (x : A) :
  In x (py_slice_to l k) -> In x l.
Proof.
  unfold py_slice_to. destruct (0 <=? k)%Z; intros H.
  - rewrite <- (firstn_skipn (Z.to_nat k) l). apply in_or_app. now left.
  - rewrite <- (firstn_skipn (List.length l - Z.to_nat (- k)) l).
    apply in_or_app. now left.
Qed.

Lemma descending_map {A B : Type} (f : A -> B) (kb : B -> R) (ka : A -> R)
    (l : list A) :
  (forall x, kb (f x) = ka x) ->
  descending ka l -> descending kb (map f l).
Proof.
  intros E. unfold descending.
  induction 1 as [| x l Hl IH Hx]; simpl; constructor; [assumption |].
  rewrite Forall_map. eapply Forall_impl; [| exact Hx].
  simpl; intros y. now rewrite !E.
Qed.

(** ** Range of the similarity measures *)

Section CosineFacts.
Local Open Scope R_scope.

Lemma square_le_le (x y : R) : 0 <= y -> x * x <= y * y -> x <= y.
Proof. intros Hy H. nra. Qed.

Lemma cosine_step_inv (acc : R * R * R) (ab : R * R) :
  cs_inv acc -> cs_inv (cosine_step acc ab).
Proof.
  destruct acc as [[dot n1] n2], ab as [a b]; simpl.
  intros (H1 & H2 & H).
  split; [nra |]. split; [nra |].
  assert (Hx : 2 * dot * a * b <= n1 * (b * b) + n2 * (a * a)).
  { pose proof (Rle_0_sqr a) as Ha. pose proof (Rle_0_sqr b) as Hb.
    unfold Rsqr in Ha, Hb.
    apply square_le_le.
    - apply Rplus_le_le_0_compat; apply Rmult_le_pos; assumption.
    - pose proof (Rle_0_sqr (n1 * (b * b) - n2 * (a * a))) as Hd.
      unfold Rsqr in Hd.
      assert (Hm : 0 <= (a * a) * (b * b) * (n1 * n2 - dot * dot)).
      { apply Rmult_le_pos; [apply Rmult_le_pos; assumption | lra]. }
      lra. }
  lra.
Qed.

Lemma cosine_fold_inv (l : list (R * R)) (acc : R * R * R) :
  cs_inv acc -> cs_inv (fold_left cosine_step l acc).
Proof.
  revert acc; induction l as [| ab l IH]; simpl; intros acc H; [assumption |].
  apply IH. now apply cosine_step_inv.
Qed.

Lemma cosine_loop_inv (vec1 vec2 : list R) : cs_inv (cosine_loop vec1 vec2).
Proof. apply cosine_fold_inv. simpl. lra. Qed.

Lemma quotient_bounds (dot m : R) :
  0 < m -> dot * dot <= m -> -1 <= dot / sqrt m <= 1.
Proof.
  intros Hm H.
  assert (Hs : 0 < sqrt m) by now apply sqrt_lt_R0.
  assert (Habs : Rabs dot <= sqrt m).
  { rewrite <- sqrt_Rsqr_abs. apply sqrt_le_1_alt. exact H. }
  pose proof (Rle_abs dot) as Hup.
  pose proof (Rle_abs (- dot)) as Hlo. rewrite Rabs_Ropp in Hlo.
  split.
  - apply Rmult_le_reg_r with (sqrt m); [assumption |].
    unfold Rdiv. rewrite Rmult_assoc, Rinv_l by lra. lra.
  - apply Rmult_le_reg_r with (sqrt m); [assumption |].
    unfold Rdiv. rewrite Rmult_assoc, Rinv_l by lra. lra.
Qed.

(** Over the reals the cosine stays within [-1, 1]. *)
Lemma cosine_bounds (vec1 vec2 : list R) :
  -1 <= _cosine_similarity vec1 vec2 <= 1.
Proof.
  unfold _cosine_similarity.
  destruct vec1 as [| a v1]; [lra |].
  destruct vec2 as [| b v2]; [lra |].
  destruct (negb _); [lra |].
  pose proof (cosine_loop_inv (a :: v1) (b :: v2)) as H.
  destruct (cosine_loop (a :: v1) (b :: v2)) as [[dot n1] n2].
  destruct H as (H1 & H2 & H).
  destruct (Rle_dec n1 0); [lra |].
  destruct (Rle_dec n2 0); [lra |].
  apply quotient_bounds; [nra | assumption].
Qed.

End CosineFacts.

Module Binary64Facts.
Import PrimFloat.
#[local] Set Warnings "-inexact-float".

(** Rounding can push a cosine beyond 1: on binary64 numbers the cosine
    of the parallel vectors [0.3] and [1.7] is 1.0000000000000002, and
    tiny vectors make the division raise. *)
Lemma cosine_rounding_exceeds_one :
  Binary64._cosine_similarity [0.3%float] [1.7%float]
    = Ok 1.0000000000000002%float
  /\ (1 <? 1.0000000000000002)%float = true
  /\ Binary64._cosine_similarity [1e-100%float] [1e-100%float]
     = Raise ZeroDivisionError.
Proof. repeat split. Qed.

End Binary64Facts.

Module RetrievalFacts.
Import PyStr QuestionAnsweringSystem Examples.

Lemma str_in_In (x : string) (l : list string) :
  str_in x l = true <-> In x l.
Proof.
  unfold str_in. rewrite existsb_exists. split.
  - intros (y & Hy & E). apply String.eqb_eq in E. now subst.
  - intros H. exists x. split; [assumption | apply String.eqb_refl].
Qed.

Lemma set_inter_le_l (ta tb : list string) :
  (List.length (set_inter ta tb) <= List.length ta)%nat.
Proof. apply filter_length_le. Qed.

Lemma set_inter_le_r (ta tb : list string) :
  NoDup ta -> (List.length (set_inter ta tb) <= List.length tb)%nat.
Proof.
  intros H. apply NoDup_incl_length.
  - now apply NoDup_filter.
  - intros x Hx. apply filter_In in Hx. now apply str_in_In.
Qed.

(** The token-overlap measure stays within [0, 1]. *)
Lemma lexical_bounds (a b : string) :
  (0 <= _lexical_similarity a b <= 1)%R.
Proof.
  unfold _lexical_similarity.
  pose proof (set_inter_le_l (token_set a) (token_set b)) as Hl.
  pose proof (set_inter_le_r (token_set a) (token_set b)
                             (NoDup_nodup _ _)) as Hr.
  destruct (token_set a) as [| x ta] eqn:Ea; [lra |].
  destruct (token_set b) as [| y tb] eqn:Eb; [lra |].
  set (i := List.length (set_inter (x :: ta) (y :: tb))) in *.
  set (la := List.length (x :: ta)) in *.
  set (lb := List.length (y :: tb)) in *.
  assert (Hla : (1 <= la)%nat) by (subst la; simpl; lia).
  assert (Hlb : (1 <= lb)%nat) by (subst lb; simpl; lia).
  assert (Hpos : (0 < INR (la * lb))%R) by (apply lt_0_INR; nia).
  assert (Hs : (0 < sqrt (INR (la * lb)))%R) by now apply sqrt_lt_R0.
  assert (Hi : (0 <= INR i)%R) by apply pos_INR.
  assert (Hsq : (INR i * INR i <= INR (la * lb))%R).
  { rewrite <- mult_INR. apply le_INR. nia. }
  split.
  - apply Rmult_le_reg_r with (sqrt (INR (la * lb))); [assumption |].
    unfold Rdiv. rewrite Rmult_assoc, Rinv_l by lra. lra.
  - apply (quotient_bounds (INR i) (INR (la * lb))); assumption.
Qed.

Section Retrieval.
Variable encode : string -> option (list R).

Lemma clause_similarity_bounds (question : string) (clause : Clause) :
  (-1 <= clause_similarity question (encode question) clause <= 1)%R.
Proof.
  unfold clause_similarity.
  destruct (encode question) as [qv |];
    [destruct (clause_embedding_vector clause) as [cv |] |].
  - apply cosine_bounds.
  - pose proof (lexical_bounds question (clause_text clause)); lra.
  - pose proof (lexical_bounds question (clause_text clause)); lra.
Qed.

Lemma clause_similarity_lexical (question : string) (clause : Clause) :
  encode question = None ->
  clause_similarity question (encode question) clause
    = _lexical_similarity question (clause_text clause).
Proof. intros ->. reflexivity. Qed.

Lemma relevance_of_evidence (s : Session) (cs : Clause * R) :
  ev_relevance_score (to_evidence s cs) = snd cs.
Proof. destruct cs; reflexivity. Qed.

(** Every returned item is a candidate together with its similarity. *)
Lemma retrieve_evidence_In (s : Session) (question : string)
    (cid : option Z) (top_k : Z) (e : EvidenceClause) :
  In e (_retrieve_evidence encode s question cid top_k) ->
  exists clause,
    In clause (candidate_clauses s cid)
    /\ e = to_evidence s
             (clause,
              clause_similarity question (encode question) clause).
Proof.
  unfold _retrieve_evidence.
  destruct (candidate_clauses s cid) as [| c0 cs] eqn:E; [intros [] |].
  intros H. apply in_map_iff in H. destruct H as ([cl r] & <- & H).
  apply py_slice_to_incl in H.
  apply (Permutation_in _ (sort_desc_perm snd _)) in H.
  unfold clause_scores in H. apply in_map_iff in H.
  destruct H as (cl' & [= -> <-] & H). eauto.
Qed.

Lemma retrieve_evidence_nonneg (s : Session) (question : string)
    (cid : option Z) (top_k : Z) :
  (0 <= top_k)%Z ->
  _retrieve_evidence encode s question cid top_k
    = map (to_evidence s)
          (firstn (Z.to_nat top_k)
             (sort_desc snd
                (clause_scores encode question (candidate_clauses s cid)))).
Proof.
  intros Hk. unfold _retrieve_evidence.
  destruct (candidate_clauses s cid) as [| c cs].
  - simpl. now rewrite firstn_nil.
  - now rewrite py_slice_to_nonneg.
Qed.

Lemma retrieve_evidence_length (s : Session) (question : string)
    (cid : option Z) (top_k : Z) :
  (0 <= top_k)%Z ->
  List.length (_retrieve_evidence encode s question cid top_k)
    = Nat.min (Z.to_nat top_k) (List.length (candidate_clauses s cid)).
Proof.
  intros Hk. rewrite retrieve_evidence_nonneg by assumption.
  rewrite length_map, length_firstn.
  rewrite (Permutation_length (sort_desc_perm snd _)).
  unfold clause_scores. now rewrite length_map.
Qed.

End Retrieval.

Lemma cosine_opposite : _cosine_similarity [1%R] [(-1)%R] = (-1)%R.
Proof.
  unfold _cosine_similarity, cosine_loop; simpl.
  destruct (Rle_dec (0 + 1 * 1) 0) as [H | _]; [exfalso; lra |].
  destruct (Rle_dec (0 + -1 * -1) 0) as [H | _]; [exfalso; lra |].
  replace ((0 + 1 * 1) * (0 + -1 * -1))%R with 1%R by ring.
  rewrite sqrt_1. lra.
Qed.

Lemma opposite_retrieval (question : string) :
  _retrieve_evidence unit_model opposite_session question None 5
    = [to_evidence opposite_session
         (opposite_clause, _cosine_similarity [1%R] [(-1)%R])].
Proof. reflexivity. Qed.

(** C2 (as stated, refuted): a clause whose stored vector is opposite to
    the question's vector is returned with relevance -1. *)
Lemma relevance_can_be_negative :
  exists e,
    In e (_retrieve_evidence unit_model opposite_session
                             "When is payment due?" None 5)
    /\ (ev_relevance_score e = -1)%R
    /\ ~ (0 <= ev_relevance_score e <= 1)%R.
Proof.
  rewrite opposite_retrieval. eexists; split; [left; reflexivity |].
  rewrite relevance_of_evidence. cbn [snd]. rewrite cosine_opposite.
  split; [reflexivity | lra].
Qed.

(** C2 (amended): every returned evidence clause is a candidate clause
    carrying its similarity to the question as relevance score; whenever
    that similarity is the token-overlap measure, that is when the
    question has no embedding or the clause has no stored vector, the
    score lies in [0, 1].  (No such range is stated for a score computed
    from two vectors: see [relevance_can_be_negative].) *)
Theorem relevance_score_bounds
    (encode : string -> option (list R)) (s : Session) (question : string)
    (cid : option Z) (top_k : Z) (e : EvidenceClause) :
  In e (_retrieve_evidence encode s question cid top_k) ->
  exists clause : Clause,
    In clause (candidate_clauses s cid)
    /\ ev_clause_id e = clause_id clause
    /\ ev_relevance_score e
       = clause_similarity question (encode question) clause
    /\ (encode question = None \/ clause_embedding_vector clause = None ->
        ev_relevance_score e
          = _lexical_similarity question (clause_text clause)
        /\ (0 <= ev_relevance_score e <= 1)%R).
Proof.
  intros H. apply retrieve_evidence_In in H.
  destruct H as (clause & Hin & ->). exists clause.
  rewrite relevance_of_evidence; cbn [snd].
  split; [assumption |]. split; [reflexivity |]. split; [reflexivity |].
  intros N.
  assert (E : clause_similarity question (encode question) clause
              = _lexical_similarity question (clause_text clause)).
  { unfold clause_similarity. destruct N as [-> | ->]; [reflexivity |].
    now destruct (encode question). }
  rewrite E. split; [reflexivity | apply lexical_bounds].
Qed.

Lemma lexical_retrieval (question : string) :
  _retrieve_evidence no_model opposite_session question None 5
    = [to_evidence opposite_session
         (opposite_clause,
          _lexical_similarity question (clause_text opposite_clause))].
Proof. reflexivity. Qed.

Lemma relevance_score_bounds_witness :
  let e := to_evidence opposite_session
             (opposite_clause,
              _lexical_similarity "When is payment due?"
                                  (clause_text opposite_clause)) in
  exists clause : Clause,
    In clause (candidate_clauses opposite_session None)
    /\ ev_clause_id e = clause_id clause
    /\ ev_relevance_score e
       = clause_similarity "When is payment due?"
                           (no_model "When is payment due?") clause
    /\ (no_model "When is payment due?" = None
        \/ clause_embedding_vector clause = None ->
        ev_relevance_score e
          = _lexical_similarity "When is payment due?" (clause_text clause)
        /\ (0 <= ev_relevance_score e <= 1)%R).
Proof.
  intros e.
  apply (relevance_score_bounds no_model opposite_session
           "When is payment due?" None 5 e).
  rewrite lexical_retrieval. left; reflexivity.
Defined.

(** C6: for a non-negative [top_k], retrieval returns
    [min(top_k, number of candidates)] items, in non-increasing order of
    relevance; they are the first [top_k] entries of a ranking of all
    scored candidates in which candidates with equal scores keep the
    order they had in the candidate list. *)
Theorem retrieve_evidence_top_k
    (encode : string -> option (list R)) (s : Session) (question : string)
    (cid : option Z) (top_k : Z) :
  (0 <= top_k)%Z ->
  let candidates := candidate_clauses s cid in
  let scored := clause_scores encode question candidates in
  let evidence := _retrieve_evidence encode s question cid top_k in
  List.length evidence = Nat.min (Z.to_nat top_k) (List.length candidates)
  /\ descending ev_relevance_score evidence
  /\ exists ranked,
       Permutation ranked scored
       /\ descending snd ranked
       /\ (forall r : R, with_key snd r ranked = with_key snd r scored)
       /\ evidence = map (to_evidence s) (firstn (Z.to_nat top_k) ranked).
Proof.
  intros Hk candidates scored evidence.
  assert (E : evidence
              = map (to_evidence s)
                    (firstn (Z.to_nat top_k) (sort_desc snd scored)))
    by now apply retrieve_evidence_nonneg.
  split; [| split].
  - now apply retrieve_evidence_length.
  - rewrite E. apply descending_map with (ka := snd).
    + apply relevance_of_evidence.
    + apply descending_firstn, sort_desc_descending.
  - exists (sort_desc snd scored).
    split; [apply sort_desc_perm |].
    split; [apply sort_desc_descending |].
    split; [intros r; apply sort_desc_stable | exact E].
Qed.

Lemma retrieve_evidence_top_k_witness :
  let candidates := candidate_clauses opposite_session None in
  let scored := clause_scores unit_model "When is payment due?" candidates in
  let evidence :=
    _retrieve_evidence unit_model opposite_session
                       "When is payment due?" None 5 in
  List.length evidence = Nat.min (Z.to_nat 5) (List.length candidates)
  /\ descending ev_relevance_score evidence
  /\ exists ranked,
       Permutation ranked scored
       /\ descending snd ranked
       /\ (forall r : R, with_key snd r ranked = with_key snd r scored)
       /\ evidence
          = map (to_evidence opposite_session) (firstn (Z.to_nat 5) ranked).
Proof.
  apply (retrieve_evidence_top_k unit_model opposite_session
           "When is payment due?" None 5).
  lia.
Defined.

(** Ten candidates and [top_k = 5] give five items. *)
Lemma retrieve_five_of_ten
    (encode : string -> option (list R)) (s : Session) (question : string)
    (cid : option Z) :
  List.length (candidate_clauses s cid) = 10%nat ->
  List.length (_retrieve_evidence encode s question cid 5) = 5%nat.
Proof.
  intros H.
  rewrite retrieve_evidence_length by lia. rewrite H. reflexivity.
Qed.

(** A negative bound cuts from the end of the ranking instead. *)
Lemma py_slice_to_negative :
  py_slice_to [1; 2; 3]%nat (-1) = [1; 2]%nat.
Proof. reflexivity. Qed.

(** C8: when there is no candidate clause, or retrieval returns nothing,
    [answer_question] returns the fixed answer text with confidence 0,
    empty evidence, ambiguity and conflict lists and no review flag, and
    leaves the session as it was (nothing is analysed or saved). *)
Theorem answer_question_no_evidence
    (encode : string -> option (list R))
    (set_iteration : list string -> list string)
    (s : Session) (question : string) (cid : option Z) (top_k : Z)
    (asked_by : string) :
  candidate_clauses s cid = []
  \/ _retrieve_evidence encode s question cid top_k = [] ->
  answer_question encode set_iteration s question cid top_k asked_by
    = (s, mk_AnswerResponse
            "I couldn't find relevant clauses to answer this question."
            0%R [] [] [] false).
Proof.
  intros H.
  assert (E : _retrieve_evidence encode s question cid top_k = []).
  { destruct H as [H | H]; [| exact H].
    unfold _retrieve_evidence. now rewrite H. }
  unfold answer_question. now rewrite E.
Qed.

Lemma answer_question_no_evidence_witness :
  answer_question no_model list_order empty_session
                  "What is the notice period?" None 5 "anonymous"
    = (empty_session,
       mk_AnswerResponse
         "I couldn't find relevant clauses to answer this question."
         0%R [] [] [] false).
Proof.
  apply (answer_question_no_evidence no_model list_order empty_session
           "What is the notice period?" None 5 "anonymous").
  left; reflexivity.
Defined.

End RetrievalFacts.

(** ** Strings under extension *)

Module PyStrFacts.
Import PyStr.

Lemma append_assoc (a b c : string) : (a ++ b) ++ c = a ++ (b ++ c).
Proof. induction a as [| x a IH]; simpl; [reflexivity | now rewrite IH]. Qed.

Lemma append_nil_r (a : string) : a ++ "" = a.
Proof. induction a as [| x a IH]; simpl; [reflexivity | now rewrite IH]. Qed.



Lemma length_lower (a : string) : String.length (lower a) = String.length a.
Proof. induction a as [| x a IH]; simpl; [reflexivity | now rewrite IH]. Qed.

Lemma rev_string_aux_app (s acc : string) :
  rev_string_aux s acc = rev_string s ++ acc.
Proof.
  unfold rev_string. revert acc.
  induction s as [| c s IH]; intros acc; simpl; [reflexivity |].
  rewrite IH, (IH (String c "")), append_assoc. reflexivity.
Qed.

Lemma rev_string_cons (c : ascii) (s : string) :
  rev_string (String c s) = rev_string s ++ String c "".
Proof. unfold rev_string at 1; simpl. apply rev_string_aux_app. Qed.





(** *** Words and sentences *)






End PyStrFacts.

(** ** Ambiguity score *)

Module AmbiguityFacts.
Import PyStr PyStrFacts AmbiguityDetector.

(** *** Digits and dates *)





(** *** The six contributions *)















(** *** The score *)








(** The separating space matters: glued to the last word, a term can hide
    a standalone negation and lower the score. *)
Lemma glued_term_lowers_score :
  ambiguity_score Examples.negated_clause == 2 # 10
  /\ ambiguity_score Examples.negated_glued_clause == 15 # 100.
Proof. split; reflexivity. Qed.

End AmbiguityFacts.

(** ** Laws of the two similarity measures *)

Section CosineLaws.
Local Open Scope R_scope.

Lemma cosine_fold_swap (a b : list R) (d x y : R) :
  fold_left cosine_step (combine b a) (d, y, x)
    = let '(d', x', y') := fold_left cosine_step (combine a b) (d, x, y) in
      (d', y', x').
Proof.
  revert b d x y; induction a as [| u a IH]; intros [| v b] d x y; simpl;
    try reflexivity.
  rewrite IH. now replace (d + v * u) with (d + u * v) by ring.
Qed.

Lemma cosine_swap (vec1 vec2 : list R) :
  _cosine_similarity vec1 vec2 = _cosine_similarity vec2 vec1.
Proof.
  unfold _cosine_similarity.
  destruct vec1 as [| a v1], vec2 as [| b v2]; try reflexivity.
  rewrite (Nat.eqb_sym (List.length (b :: v2))).
  destruct (negb _); [reflexivity |].
  unfold cosine_loop. rewrite (cosine_fold_swap (a :: v1) (b :: v2)).
  destruct (fold_left cosine_step (combine (a :: v1) (b :: v2)) (0, 0, 0))
    as [[dot n1] n2].
  destruct (Rle_dec n1 0), (Rle_dec n2 0); try reflexivity.
  now rewrite (Rmult_comm n2 n1).
Qed.

(** X1: the cosine does not depend on the order of its two vectors. *)
Theorem cosine_similarity_sym (vec1 vec2 : list R) :
  _cosine_similarity vec1 vec2 = _cosine_similarity vec2 vec1.
Proof. apply cosine_swap. Qed.

Lemma cosine_fold_zero (v1 v2 : list R) (d x y : R) :
  (forall u, In u v1 -> u = 0) ->
  exists d' y', fold_left cosine_step (combine v1 v2) (d, x, y) = (d', x, y').
Proof.
  revert v2 d y; induction v1 as [| u v1 IH]; intros v2 d y H; simpl.
  - eauto.
  - destruct v2 as [| w v2]; simpl; [eauto |].
    rewrite (H u) by now left.
    replace (x + 0 * 0) with x by ring.
    apply IH. intros; apply H; now right.
Qed.

(** X2: the cosine is 0 when the vectors differ in length and when either
    vector has only zero components. *)
Theorem cosine_similarity_degenerate (vec1 vec2 : list R) :
  List.length vec1 <> List.length vec2
  \/ (forall u, In u vec1 -> u = 0)
  \/ (forall u, In u vec2 -> u = 0) ->
  _cosine_similarity vec1 vec2 = 0.
Proof.
  assert (Z1 : forall a b, (forall u, In u a -> u = 0) ->
                           _cosine_similarity a b = 0).
  { intros a b H. unfold _cosine_similarity.
    destruct a as [| a0 a]; [reflexivity |].
    destruct b as [| b0 b]; [reflexivity |].
    destruct (negb _); [reflexivity |].
    unfold cosine_loop.
    destruct (cosine_fold_zero (a0 :: a) (b0 :: b) 0 0 0 H) as (d' & y' & ->).
    destruct (Rle_dec 0 0); [reflexivity | lra]. }
  intros [H | [H | H]].
  - unfold _cosine_similarity.
    destruct vec1 as [| a v1]; [reflexivity |].
    destruct vec2 as [| b v2]; [reflexivity |].
    apply Nat.eqb_neq in H. now rewrite H.
  - now apply Z1.
  - rewrite cosine_swap. now apply Z1.
Qed.

Lemma cosine_degenerate_witness : _cosine_similarity [1; 2] [0; 0] = 0.
Proof.
  apply (cosine_similarity_degenerate [1; 2] [0; 0]).
  right; right. intros u [<- | [<- | []]]; reflexivity.
Defined.

End CosineLaws.

(** ** Token overlap *)

Module LexicalFacts.
Import PyStr PyStrFacts QuestionAnsweringSystem RetrievalFacts.

Lemma set_inter_length_sym (ta tb : list string) :
  NoDup ta -> NoDup tb ->
  List.length (set_inter ta tb) = List.length (set_inter tb ta).
Proof.
  assert (Le : forall a b, NoDup a ->
          (List.length (set_inter a b) <= List.length (set_inter b a))%nat).
  { intros a b Ha. apply NoDup_incl_length; [now apply NoDup_filter |].
    intros x Hx. apply filter_In in Hx. destruct Hx as (Hxa & Hxb).
    apply filter_In. split; [now apply str_in_In | now apply str_in_In]. }
  intros Ha Hb. apply Nat.le_antisymm; now apply Le.
Qed.

(** X3: the token-overlap similarity does not depend on the order of its
    two texts. *)
Theorem lexical_similarity_sym (a b : string) :
  _lexical_similarity a b = _lexical_similarity b a.
Proof.
  unfold _lexical_similarity.
  pose proof (set_inter_length_sym (token_set a) (token_set b)
                (NoDup_nodup _ _) (NoDup_nodup _ _)) as E.
  destruct (token_set a) as [| x ta], (token_set b) as [| y tb];
    try reflexivity.
  rewrite E, (Nat.mul_comm (List.length (y :: tb))). reflexivity.
Qed.

Lemma set_inter_self (ta : list string) : set_inter ta ta = ta.
Proof.
  unfold set_inter.
  assert (G : forall l, incl l ta -> filter (fun t => str_in t ta) l = l).
  { induction l as [| x l IH]; intros Hl; simpl; [reflexivity |].
    replace (str_in x ta) with true
      by (symmetry; apply str_in_In, Hl; now left).
    rewrite IH; [reflexivity |]. intros y Hy. apply Hl. now right. }
  apply G, incl_refl.
Qed.

(** X4: a text with at least one token has similarity 1 with itself. *)
Theorem lexical_similarity_self (a : string) :
  _tokenize a <> [] -> _lexical_similarity a a = 1%R.
Proof.
  intros H. unfold _lexical_similarity.
  destruct (token_set a) as [| x ta] eqn:E.
  - exfalso. apply H. unfold token_set in E.
    destruct (_tokenize a) as [| t ts]; [reflexivity |].
    assert (Hin : In t (nodup string_dec (t :: ts))) by (apply nodup_In; now left).
    rewrite E in Hin. destruct Hin.
  - rewrite set_inter_self. rewrite mult_INR.
    set (n := INR (List.length (x :: ta))).
    assert (Hn : (0 < n)%R) by (subst n; apply lt_0_INR; simpl; lia).
    rewrite sqrt_square by lra. field. lra.
Qed.

Lemma lexical_self_witness :
  _lexical_similarity "Payment terms" "Payment terms" = 1%R.
Proof.
  apply (lexical_similarity_self "Payment terms"). discriminate.
Defined.

(** X5: the similarity is 0 exactly when the two texts have no token in
    common (in particular when either has no token at all). *)
Theorem lexical_similarity_zero_iff (a b : string) :
  _lexical_similarity a b = 0%R <->
  (forall t, In t (_tokenize a) -> ~ In t (_tokenize b)).
Proof.
  unfold _lexical_similarity, token_set.
  set (ta := nodup string_dec (_tokenize a)).
  set (tb := nodup string_dec (_tokenize b)).
  assert (Ia : forall t, In t ta <-> In t (_tokenize a))
    by (intros; apply nodup_In).
  assert (Ib : forall t, In t tb <-> In t (_tokenize b))
    by (intros; apply nodup_In).
  split.
  - intros E t Hta Htb.
    apply Ia in Hta. apply Ib in Htb.
    destruct ta as [| x ta']; [destruct Hta |].
    destruct tb as [| y tb']; [destruct Htb |].
    set (i := List.length (set_inter (x :: ta') (y :: tb'))) in *.
    assert (Hi : (1 <= i)%nat).
    { assert (Hin : In t (set_inter (x :: ta') (y :: tb')))
        by (apply filter_In; split; [assumption | now apply str_in_In]).
      subst i. destruct (set_inter (x :: ta') (y :: tb'));
        [destruct Hin | simpl; lia]. }
    assert (Hpos : (0 < INR (List.length (x :: ta') * List.length (y :: tb')))%R)
      by (apply lt_0_INR; simpl; lia).
    apply sqrt_lt_R0 in Hpos.
    assert (Hi' : (1 <= INR i)%R) by (apply (le_INR 1); exact Hi).
    assert (Hq : (0 < INR i / sqrt (INR (List.length (x :: ta')
                                          * List.length (y :: tb'))))%R).
    { apply Rdiv_lt_0_compat; lra. }
    lra.
  - intros H.
    destruct ta as [| x ta'] eqn:Ea; [reflexivity |].
    destruct tb as [| y tb'] eqn:Eb; [reflexivity |].
    replace (set_inter (x :: ta') (y :: tb')) with (@nil string).
    + simpl. unfold Rdiv. apply Rmult_0_l.
    + symmetry. unfold set_inter.
      destruct (filter _ _) as [| t l] eqn:F; [reflexivity |].
      assert (Hin : In t (filter (fun t => str_in t (y :: tb')) (x :: ta')))
        by (rewrite F; now left).
      apply filter_In in Hin. destruct Hin as (H1 & H2).
      apply str_in_In in H2. exfalso.
      apply (H t); [apply Ia; exact H1 | apply Ib; exact H2].
Qed.

End LexicalFacts.

(** ** Grouping by clause type *)

Module GroupingFacts.
Import PyStr ConflictDetector VersionScanFacts.

Lemma ClauseType_eqb_refl (t : ClauseType) : ClauseType_eqb t t = true.
Proof. now apply ClauseType_eqb_eq. Qed.

Lemma ClauseType_eqb_neq (a b : ClauseType) :
  ClauseType_eqb a b = false <-> a <> b.
Proof.
  rewrite <- ClauseType_eqb_eq. destruct (ClauseType_eqb a b); split;
    congruence.
Qed.

(** With distinct keys, [bucket_add] extends the bucket of the clause's
    type, or opens a new last bucket when there is none. *)
Lemma bucket_add_spec (cl : Clause) (b : list (ClauseType * list Clause)) :
  NoDup (map fst b) ->
  bucket_add cl b
    = (map (fun tc => (fst tc,
                       if ClauseType_eqb (fst tc) (clause_type cl)
                       then (snd tc ++ [cl])%list else snd tc)) b
       ++ (if existsb (fun t => ClauseType_eqb t (clause_type cl)) (map fst b)
           then [] else [(clause_type cl, [cl])]))%list.
Proof.
  induction b as [| [t cls] b IH]; intros N; simpl; [reflexivity |].
  inversion N as [| ? ? Hnotin N']; subst.
  destruct (ClauseType_eqb t (clause_type cl)) eqn:E; simpl.
  - apply ClauseType_eqb_eq in E. subst t.
    rewrite app_nil_r. f_equal.
    clear IH N N'. induction b as [| [t' cls'] b IH]; simpl; [reflexivity |].
    simpl in Hnotin.
    replace (ClauseType_eqb t' (clause_type cl)) with false.
    + simpl. f_equal. apply IH. tauto.
    + symmetry. apply ClauseType_eqb_neq. intros ->. tauto.
  - now rewrite IH.
Qed.

Lemma clauses_of_type_snoc (t : ClauseType) (l : list Clause) (cl : Clause) :
  clauses_of_type t (l ++ [cl])
    = (clauses_of_type t l
       ++ (if ClauseType_eqb t (clause_type cl) then [cl] else []))%list.
Proof. unfold clauses_of_type. rewrite filter_app. reflexivity. Qed.

Lemma existsb_key (t : ClauseType) (keys : list ClauseType) :
  existsb (fun k => ClauseType_eqb k t) keys = true <-> In t keys.
Proof.
  rewrite existsb_exists. split.
  - intros (k & Hk & E). apply ClauseType_eqb_eq in E. now subst.
  - intros H. exists t. split; [assumption | apply ClauseType_eqb_refl].
Qed.

Lemma grouped_by_type_add (l : list Clause)
    (b : list (ClauseType * list Clause)) (cl : Clause) :
  grouped_by_type l b -> grouped_by_type (l ++ [cl]) (bucket_add cl b).
Proof.
  intros (N & Cov & Bk). rewrite (bucket_add_spec cl b N).
  set (new := if existsb (fun t => ClauseType_eqb t (clause_type cl)) (map fst b)
              then [] else [(clause_type cl, [cl])]).
  assert (Keys : map fst (map (fun tc : ClauseType * list Clause =>
                   (fst tc, if ClauseType_eqb (fst tc) (clause_type cl)
                            then (snd tc ++ [cl])%list else snd tc)) b)
                 = map fst b).
  { rewrite map_map. apply map_ext. reflexivity. }
  split; [| split].
  - rewrite map_app, Keys. subst new.
    destruct (existsb _ _) eqn:E; simpl; [now rewrite app_nil_r |].
    apply NoDup_app; [assumption | repeat constructor; intros [] |].
    intros t Ht [<- | []].
    apply existsb_key in Ht. congruence.
  - intros c Hc. rewrite map_app, Keys. apply in_or_app.
    apply in_app_or in Hc. destruct Hc as [Hc | [<- | []]]; [left; auto |].
    subst new. destruct (existsb _ _) eqn:E.
    + left. now apply existsb_key.
    + right. now left.
  - intros t cls Hin. apply in_app_or in Hin. destruct Hin as [Hin | Hin].
    + apply in_map_iff in Hin. destruct Hin as ([t0 cls0] & [= <- <-] & Hin).
      simpl. destruct (Bk t0 cls0 Hin) as (Hne & ->).
      rewrite clauses_of_type_snoc.
      destruct (ClauseType_eqb t0 (clause_type cl)).
      * split; [| reflexivity]. intros E. now apply app_eq_nil in E.
      * now rewrite app_nil_r.
    + subst new. destruct (existsb _ _) eqn:E; [destruct Hin |].
      destruct Hin as [[= <- <-] | []].
      split; [discriminate |].
      rewrite clauses_of_type_snoc, ClauseType_eqb_refl.
      replace (clauses_of_type (clause_type cl) l) with (@nil Clause);
        [reflexivity |].
      symmetry. unfold clauses_of_type.
      destruct (filter _ l) as [| c rest] eqn:F; [reflexivity |].
      assert (Hc : In c (filter (fun c => ClauseType_eqb (clause_type cl)
                                             (clause_type c)) l))
        by (rewrite F; now left).
      apply filter_In in Hc. destruct Hc as (Hc & Ety).
      apply ClauseType_eqb_eq in Ety.
      apply Cov in Hc. rewrite <- Ety in Hc.
      apply existsb_key in Hc. congruence.
Qed.

Lemma grouped_by_type_fold (l2 l1 : list Clause)
    (b : list (ClauseType * list Clause)) :
  grouped_by_type l1 b ->
  grouped_by_type (l1 ++ l2) (fold_left (fun b cl => bucket_add cl b) l2 b).
Proof.
  revert l1 b; induction l2 as [| cl l2 IH]; intros l1 b H; simpl.
  - now rewrite app_nil_r.
  - replace (l1 ++ cl :: l2)%list with ((l1 ++ [cl]) ++ l2)%list
      by now rewrite <- app_assoc.
    apply IH. now apply grouped_by_type_add.
Qed.

Lemma grouped_by_type_start : grouped_by_type [] [].
Proof. split; [constructor |]. split; [intros c [] | intros t cls []]. Qed.

(** X6: the grouping used by the internal scan has one non-empty bucket
    per clause type that occurs, and the bucket of a type holds exactly the
    clauses of that type in document order. *)
Theorem clauses_by_type_grouped (clauses : list Clause) :
  grouped_by_type clauses (clauses_by_type clauses).
Proof.
  unfold clauses_by_type.
  apply (grouped_by_type_fold clauses [] []), grouped_by_type_start.
Qed.

Lemma later_pairs_In (l : list Clause) (c1 c2 : Clause) :
  In (c1, c2) (later_pairs l) -> In c1 l /\ In c2 l.
Proof.
  induction l as [| x l IH]; simpl; [tauto |].
  intros H. apply in_app_or in H. destruct H as [H | H].
  - apply in_map_iff in H. destruct H as (y & [= <- <-] & Hy). tauto.
  - apply IH in H. tauto.
Qed.

(** The internal scan only pairs clauses of the contract that have the
    same type. *)
Lemma internal_pairs_In (s : Session) (contract : Contract) (c1 c2 : Clause) :
  In (c1, c2) (internal_pairs s contract) ->
  In c1 (clauses_of s contract) /\ In c2 (clauses_of s contract)
  /\ clause_type c1 = clause_type c2.
Proof.
  unfold internal_pairs. intros H.
  apply in_flat_map in H. destruct H as ([t cls] & Hb & H). simpl in H.
  destruct (grouped_by_type_fold (clauses_of s contract) [] []
              grouped_by_type_start) as (_ & _ & Bk).
  fold (clauses_by_type (clauses_of s contract)) in Bk. cbn [app] in Bk.
  destruct (Bk t cls Hb) as (_ & ->).
  apply later_pairs_In in H. destruct H as (H1 & H2).
  unfold clauses_of_type in H1, H2.
  apply filter_In in H1. apply filter_In in H2.
  destruct H1 as (H1 & E1), H2 as (H2 & E2).
  apply ClauseType_eqb_eq in E1. apply ClauseType_eqb_eq in E2.
  repeat split; congruence.
Qed.

End GroupingFacts.

(** ** What the conflict analysis records *)

Module RecordedConflictFacts.
Import PyStr PyStrFacts ConflictDetector ConflictDetectorFacts VersionScanFacts
       GroupingFacts.

Lemma number_from_In (i : Z) (ks : list Conflict) (k : Conflict) :
  In k (number_from i ks) ->
  exists j k0, In k0 ks /\ k = with_conflict_id j k0.
Proof.
  revert i; induction ks as [| k1 ks IH]; intros i; simpl; [tauto |].
  intros [<- | H].
  - exists i, k1. split; [now left | reflexivity].
  - destruct (IH _ H) as (j & k0 & Hin & ->). exists j, k0. tauto.
Qed.

Lemma parent_pairs_In (amendment_clauses parent_clauses : list Clause)
    (c1 c2 : Clause) :
  In (c1, c2) (parent_pairs amendment_clauses parent_clauses) ->
  In c1 amendment_clauses /\ In c2 parent_clauses.
Proof.
  unfold parent_pairs. intros H.
  apply in_flat_map in H. destruct H as (a & Ha & H).
  apply in_map_iff in H. destruct H as (p & [= <- <-] & Hp).
  apply filter_In in Hp. tauto.
Qed.

Lemma version_pairs_In (s : Session) (contract : Contract)
    (other_contracts : list Contract) (c1 c2 : Clause) :
  In (c1, c2) (version_pairs s contract other_contracts) ->
  In c1 (clauses_of s contract) /\ In c2 (db_clauses s).
Proof.
  unfold version_pairs. intros H.
  apply in_flat_map in H. destruct H as (other & _ & H).
  apply in_flat_map in H. destruct H as (a & Ha & H).
  apply in_map_iff in H. destruct H as (p & [= <- <-] & Hp).
  apply filter_In in Hp. destruct Hp as (Hp & _).
  apply in_clauses_of in Hp. tauto.
Qed.

(** Where a recorded conflict comes from. *)
Lemma detect_conflicts_recorded (cfg : Config) (s s' : Session) (cid : Z)
    (recorded : list Conflict) (k : Conflict) :
  detect_conflicts cfg s cid = Ok (s', recorded) ->
  In k recorded ->
  exists contract j k0 c1 c2,
    contract_by_id s cid = Some contract
    /\ k = with_conflict_id j k0
    /\ _check_clause_conflict cfg c1 c2 (conflict_type k0) = Some k0
    /\ In c1 (clauses_of s contract)
    /\ In c2 (db_clauses s)
    /\ (conflict_type k0 = "CONTRADICTION"
        \/ (conflict_type k0 = "OVERRIDE" /\ has_parent_link contract = true)
        \/ conflict_type k0 = "VERSION_CONFLICT").
Proof.
  intros H Hin. unfold detect_conflicts in H.
  destruct (contract_by_id s cid) as [contract |] eqn:Ec; [| discriminate].
  destruct (_detect_version_conflicts cfg s contract) as [vs |] eqn:V;
    [| discriminate].
  unfold save_conflicts in H. injection H as _ <-.
  apply number_from_In in Hin. destruct Hin as (j & k0 & Hin & ->).
  exists contract, j, k0.
  apply detect_version_conflicts_Ok in V.
  destruct V as (other_contracts & _ & ->).
  assert (Internal : In k0 (_detect_internal_conflicts cfg s contract) ->
            exists c1 c2,
              _check_clause_conflict cfg c1 c2 (conflict_type k0) = Some k0
              /\ In c1 (clauses_of s contract) /\ In c2 (db_clauses s)
              /\ conflict_type k0 = "CONTRADICTION").
  { intros H. apply check_pairs_In in H. destruct H as (c1 & c2 & Hp & Hc).
    apply internal_pairs_In in Hp. destruct Hp as (H1 & H2 & _).
    apply in_clauses_of in H2.
    destruct (check_clause_conflict_Some _ _ _ _ _ Hc) as (_ & _ & Ek & _).
    exists c1, c2. rewrite Ek. tauto. }
  assert (Parent : In k0 (_detect_parent_conflicts cfg s contract) ->
            exists c1 c2,
              _check_clause_conflict cfg c1 c2 (conflict_type k0) = Some k0
              /\ In c1 (clauses_of s contract) /\ In c2 (db_clauses s)
              /\ conflict_type k0 = "OVERRIDE").
  { unfold _detect_parent_conflicts.
    destruct (parent_contract s contract) as [parent |]; [| intros []].
    intros H. apply check_pairs_In in H. destruct H as (c1 & c2 & Hp & Hc).
    apply parent_pairs_In in Hp. destruct Hp as (H1 & H2).
    apply in_clauses_of in H2.
    destruct (check_clause_conflict_Some _ _ _ _ _ Hc) as (_ & _ & Ek & _).
    exists c1, c2. rewrite Ek. tauto. }
  assert (Version : In k0 (check_pairs cfg
                             (version_pairs s contract other_contracts)
                             "VERSION_CONFLICT") ->
            exists c1 c2,
              _check_clause_conflict cfg c1 c2 (conflict_type k0) = Some k0
              /\ In c1 (clauses_of s contract) /\ In c2 (db_clauses s)
              /\ conflict_type k0 = "VERSION_CONFLICT").
  { intros H. apply check_pairs_In in H. destruct H as (c1 & c2 & Hp & Hc).
    apply version_pairs_In in Hp.
    destruct (check_clause_conflict_Some _ _ _ _ _ Hc) as (_ & _ & Ek & _).
    exists c1, c2. rewrite Ek. tauto. }
  apply in_app_or in Hin. destruct Hin as [Hin | Hin].
  - destruct (has_parent_link contract) eqn:L.
    + apply in_app_or in Hin. destruct Hin as [Hin | Hin].
      * destruct (Internal Hin) as (c1 & c2 & ? & ? & ? & ?).
        exists c1, c2. tauto.
      * destruct (Parent Hin) as (c1 & c2 & ? & ? & ? & ?).
        exists c1, c2. tauto.
    + destruct (Internal Hin) as (c1 & c2 & ? & ? & ? & ?).
      exists c1, c2. tauto.
  - destruct (Version Hin) as (c1 & c2 & ? & ? & ? & ?).
    exists c1, c2. tauto.
Qed.

(** X7: every conflict recorded by [detect_conflicts] has a database key,
    one of the three conflict types (OVERRIDE only for a contract flagged
    as an amendment with a parent id), its first clause is a clause of the
    analysed contract and its second clause is a stored clause. *)
Theorem detect_conflicts_provenance (cfg : Config) (s s' : Session) (cid : Z)
    (recorded : list Conflict) (k : Conflict) :
  detect_conflicts cfg s cid = Ok (s', recorded) ->
  In k recorded ->
  exists contract c1 c2,
    contract_by_id s cid = Some contract
    /\ conflict_id k <> None
    /\ In c1 (clauses_of s contract)
    /\ conflict_clause_id k = clause_id c1
    /\ In c2 (db_clauses s)
    /\ conflicting_clause_id k = clause_id c2
    /\ (conflict_type k = "CONTRADICTION"
        \/ (conflict_type k = "OVERRIDE" /\ has_parent_link contract = true)
        \/ conflict_type k = "VERSION_CONFLICT").
Proof.
  intros H Hin.
  destruct (detect_conflicts_recorded cfg s s' cid recorded k H Hin)
    as (contract & j & k0 & c1 & c2 & Ec & -> & Hc & H1 & H2 & Hty).
  destruct (check_clause_conflict_Some _ _ _ _ _ Hc) as (_ & _ & _ & I1 & I2).
  exists contract, c1, c2. simpl.
  repeat split; try assumption; discriminate.
Qed.

End RecordedConflictFacts.

(** ** Severity, degraded mode and errors of the conflict analysis *)

Module DetectionFacts.
Import PyStr PyStrFacts ConflictDetector ConflictDetectorFacts VersionScanFacts
       GroupingFacts RecordedConflictFacts Examples Samples.

Lemma deliver_session_detect :
  exists k0,
    _check_clause_conflict Config_default deliver_clause not_deliver_clause
                           "CONTRADICTION" = Some k0
    /\ detect_conflicts Config_default deliver_session 1
       = Ok (save_conflicts deliver_session [k0]).
Proof.
  destruct deliver_clauses_conflict as (k0 & E). exists k0.
  split; [exact E |].
  unfold detect_conflicts.
  cbn -[_check_clause_conflict save_conflicts].
  rewrite E. reflexivity.
Qed.

Lemma detect_conflicts_provenance_witness :
  exists s' recorded k contract c1 c2,
    detect_conflicts Config_default deliver_session 1 = Ok (s', recorded)
    /\ In k recorded
    /\ contract_by_id deliver_session 1 = Some contract
    /\ conflict_id k <> None
    /\ In c1 (clauses_of deliver_session contract)
    /\ conflict_clause_id k = clause_id c1
    /\ In c2 (db_clauses deliver_session)
    /\ conflicting_clause_id k = clause_id c2
    /\ (conflict_type k = "CONTRADICTION"
        \/ (conflict_type k = "OVERRIDE" /\ has_parent_link contract = true)
        \/ conflict_type k = "VERSION_CONFLICT").
Proof.
  destruct deliver_session_detect as (k0 & _ & E).
  assert (Hin : In (with_conflict_id 1 k0)
                   (snd (save_conflicts deliver_session [k0])))
    by (left; reflexivity).
  destruct (detect_conflicts_provenance Config_default deliver_session
              (fst (save_conflicts deliver_session [k0])) 1
              (snd (save_conflicts deliver_session [k0]))
              (with_conflict_id 1 k0))
    as (contract & c1 & c2 & H); [exact E | exact Hin |].
  exists (fst (save_conflicts deliver_session [k0])),
         (snd (save_conflicts deliver_session [k0])),
         (with_conflict_id 1 k0), contract, c1, c2.
  split; [exact E |]. split; [exact Hin | exact H].
Defined.

Lemma Qgtb_mono (a b t : Q) : a <= b -> Qgtb a t = true -> Qgtb b t = true.
Proof. rewrite !Qgtb_true. intros H L. eapply Qlt_le_trans; eauto. Qed.

(** X8: for a fixed clause type the severity never decreases when the
    contradiction score grows. *)
Theorem assess_conflict_severity_mono
    (clause_type : ClauseType) (score1 score2 : Q) :
  score1 <= score2 ->
  (RiskLevel_rank (_assess_conflict_severity clause_type score1)
   <= RiskLevel_rank (_assess_conflict_severity clause_type score2))%nat.
Proof.
  intros H. unfold _assess_conflict_severity.
  destruct (str_in _ _).
  - destruct (Qgtb score1 (7 # 10)) eqn:A.
    + rewrite (Qgtb_mono _ _ _ H A). lia.
    + destruct (Qgtb score2 (7 # 10)); simpl; lia.
  - destruct (Qgtb score1 (7 # 10)) eqn:A.
    + rewrite (Qgtb_mono _ _ _ H A). lia.
    + destruct (Qgtb score1 (5 # 10)) eqn:B.
      * rewrite (Qgtb_mono _ _ _ H B).
        destruct (Qgtb score2 (7 # 10)); simpl; lia.
      * destruct (Qgtb score2 (7 # 10)), (Qgtb score2 (5 # 10)); simpl; lia.
Qed.

Lemma assess_conflict_severity_mono_witness :
  (RiskLevel_rank (_assess_conflict_severity LIABILITY (3 # 10))
   <= RiskLevel_rank (_assess_conflict_severity LIABILITY 1))%nat.
Proof.
  apply (assess_conflict_severity_mono LIABILITY (3 # 10) 1). discriminate.
Defined.








(** *** Without stored vectors *)

Lemma check_pairs_no_vectors (cfg : Config) (pairs : list (Clause * Clause))
    (kind : string) :
  (forall c1 c2, In (c1, c2) pairs -> clause_embedding_vector c1 = None) ->
  check_pairs cfg pairs kind = [].
Proof.
  induction pairs as [| [a b] rest IH]; intros H; simpl; [reflexivity |].
  unfold _check_clause_conflict, usable_embedding.
  rewrite (H a b) by now left.
  apply IH. intros c1 c2 Hin. apply (H c1 c2). now right.
Qed.

Lemma save_no_conflicts (s : Session) : save_conflicts s [] = (s, []).
Proof. destruct s. unfold save_conflicts; simpl. now rewrite app_nil_r. Qed.

(** X10: when no stored clause has a vector, the analysis of an existing
    contract whose name has a first token (within the pattern limit of
    the database) finds nothing: it returns no conflict and leaves the
    session as it was. *)
Theorem detect_conflicts_without_vectors
    (cfg : Config) (s : Session) (cid : Z) (contract : Contract)
    (tok : string) :
  (forall cl, In cl (db_clauses s) -> clause_embedding_vector cl = None) ->
  contract_by_id s cid = Some contract ->
  first_token (contract_name contract) = Ok tok ->
  (Z.of_nat (String.length tok) + 2 <= Sqlite.MAX_LIKE_PATTERN_LENGTH)%Z ->
  detect_conflicts cfg s cid = Ok (s, []).
Proof.
  intros Hv Ec Htok Hlen. unfold detect_conflicts. rewrite Ec.
  assert (Own : forall c, In c (clauses_of s contract) ->
                          clause_embedding_vector c = None).
  { intros c Hc. apply in_clauses_of in Hc. now apply Hv. }
  assert (I : _detect_internal_conflicts cfg s contract = []).
  { apply check_pairs_no_vectors. intros c1 c2 Hp.
    apply internal_pairs_In in Hp. now apply Own. }
  assert (P : _detect_parent_conflicts cfg s contract = []).
  { unfold _detect_parent_conflicts.
    destruct (parent_contract s contract); [| reflexivity].
    apply check_pairs_no_vectors. intros c1 c2 Hp.
    apply parent_pairs_In in Hp. now apply Own. }
  unfold _detect_version_conflicts.
  rewrite Htok, (other_versions_within_limit s contract tok Hlen).
  rewrite (check_pairs_no_vectors cfg (version_pairs s contract _)).
  - rewrite I, P. destruct (has_parent_link contract); simpl;
      now rewrite save_no_conflicts.
  - intros c1 c2 Hp. apply version_pairs_In in Hp. now apply Own.
Qed.

Lemma detect_conflicts_without_vectors_witness :
  detect_conflicts Config_default plain_session 1 = Ok (plain_session, []).
Proof.
  apply (detect_conflicts_without_vectors Config_default plain_session 1
           service_contract "Service").
  - intros cl [<- | [<- | []]]; reflexivity.
  - reflexivity.
  - reflexivity.
  - vm_compute. discriminate.
Defined.


(** *** Identical prohibitions *)

Lemma startswith_prefix (s p q : string) :
  startswith s (p ++ q) = true -> startswith s p = true.
Proof.
  revert s; induction p as [| a p IH]; intros s; simpl.
  - intros _. now destruct s.
  - destruct s as [| b s]; simpl; [discriminate |].
    rewrite !andb_true_iff. intros [E H]. split; [assumption | now apply IH].
Qed.

Lemma contains_prefix (s p q : string) :
  contains s (p ++ q) = true -> contains s p = true.
Proof.
  induction s as [| c s IH]; simpl.
  - apply (startswith_prefix "" p q).
  - rewrite !orb_true_iff. intros [H | H].
    + left. now apply (startswith_prefix (String c s) p q).
    + right. now apply IH.
Qed.

Lemma prohibition_is_obligation (text_lower : string) :
  contains text_lower "shall not" = true
  \/ contains text_lower "must not" = true ->
  any_in obligations text_lower = true
  /\ any_in prohibitions text_lower = true.
Proof.
  unfold any_in, obligations, prohibitions; simpl.
  intros [H | H].
  - rewrite (contains_prefix text_lower "shall" " not" H), H. now split.
  - rewrite (contains_prefix text_lower "must" " not" H), H.
    rewrite !orb_true_r. now split.
Qed.

Lemma self_contradiction_score (text : string) :
  contains (lower text) "shall not" = true
  \/ contains (lower text) "must not" = true ->
  _check_contradiction text text == 7 # 10.
Proof.
  intros H. apply prohibition_is_obligation in H. destruct H as (O & P).
  unfold _check_contradiction. rewrite O, P, Z.sub_diag. reflexivity.
Qed.

(** X12: a text containing "shall not" or "must not" (in any letter
    case) scores at least 0.7 against every text that contains one of the
    obligation words, because a prohibition marker contains an obligation
    marker; in particular it scores exactly 0.7 against itself and
    against any text with the same wording. *)
Theorem prohibition_scores_as_contradiction (text1 text2 : string) :
  contains (lower text1) "shall not" = true
  \/ contains (lower text1) "must not" = true ->
  (any_in obligations (lower text2) = true ->
   7 # 10 <= _check_contradiction text1 text2)
  /\ _check_contradiction text1 text1 == 7 # 10.
Proof.
  intros Hp. split; [| now apply self_contradiction_score].
  intros O2. apply prohibition_is_obligation in Hp. destruct Hp as (O1 & P1).
  unfold _check_contradiction. rewrite O1, P1, O2.
  rewrite andb_true_r, orb_true_r.
  destruct (2 <=? _)%Z; apply Q.min_glb; discriminate.
Qed.

Lemma prohibition_scores_as_contradiction_witness :
  (any_in obligations (lower "The Supplier shall subcontract.") = true ->
   7 # 10 <= _check_contradiction ban_text "The Supplier shall subcontract.")
  /\ _check_contradiction ban_text ban_text == 7 # 10.
Proof.
  apply (prohibition_scores_as_contradiction
           ban_text "The Supplier shall subcontract.").
  left; reflexivity.
Defined.

End DetectionFacts.

(** ** Issues, scores and risk levels *)

Module RiskFacts.
Import PyStr PyStrFacts AmbiguityDetector AmbiguityFacts DetectionFacts.

Lemma coherent_nil : coherent_check ([], 0).
Proof. left. split; reflexivity. Qed.

Lemma coherent_issue (issue : string) (w : Q) :
  0 < w -> coherent_check ([issue], w).
Proof. right. split; [discriminate | assumption]. Qed.

Lemma coherent_app (p q : list string * Q) :
  coherent_check p -> coherent_check q ->
  coherent_check ((fst p ++ fst q)%list, snd p + snd q).
Proof.
  intros [[Ep Sp] | [Np Sp]] [[Eq Sq] | [Nq Sq]]; unfold coherent_check;
    cbn [fst snd].
  - left. split; [now rewrite Ep, Eq | now rewrite Sp, Sq].
  - right. split; [now rewrite Ep | now rewrite Sp, Qplus_0_l].
  - right. split; [now rewrite Eq, app_nil_r | now rewrite Sq, Qplus_0_r].
  - right. split.
    + intros E. apply app_eq_nil in E. tauto.
    + apply (Qlt_le_trans _ (snd p + 0)).
      * now rewrite Qplus_0_r.
      * apply Qplus_le_compat; [apply Qle_refl | now apply Qlt_le_weak].
Qed.

Lemma term_check_coherent (label : string) (terms : list string) (w : Q)
    (text : string) :
  0 < w -> coherent_check (term_check label terms w text).
Proof.
  intros Hw. unfold term_check.
  destruct (found_in terms text) as [| t ts]; [apply coherent_nil |].
  apply coherent_issue. unfold count_weight.
  apply Qmult_lt_0_compat; [| assumption].
  change 0 with (inject_Z 0). rewrite <- Zlt_Qlt. simpl. lia.
Qed.

Lemma specifics_check_coherent (c : Clause) (text : string) :
  coherent_check (specifics_check c text).
Proof.
  unfold specifics_check.
  destruct (_ && _); [destruct (str_in _ _) |];
    try apply coherent_nil. now apply coherent_issue.
Qed.

Lemma negation_check_coherent (text : string) :
  coherent_check (negation_check text).
Proof.
  unfold negation_check.
  destruct (_ <=? _)%nat; [now apply coherent_issue | apply coherent_nil].
Qed.

Lemma length_check_coherent (c : Clause) : coherent_check (length_check c).
Proof.
  unfold length_check.
  destruct (Qgtb _ _); [now apply coherent_issue | apply coherent_nil].
Qed.

(** The result of [analyze_clause] in terms of its six checks. *)
Lemma analyze_clause_eq (c : Clause) :
  let text := lower (clause_text c) in
  let t1 := term_check "Ambiguous terms: " AMBIGUOUS_TERMS (15 # 100) text in
  let t2 := term_check "Vague quantifiers: " VAGUE_QUANTIFIERS (1 # 10) text in
  let t3 := term_check "Complex conditionals: " COMPLEX_CONDITIONALS
                       (12 # 100) text in
  let t4 := specifics_check c text in
  let t5 := negation_check text in
  let t6 := length_check c in
  let issues :=
    (fst t1 ++ fst t2 ++ fst t3 ++ fst t4 ++ fst t5 ++ fst t6)%list in
  analyze_clause c
    = ((0 <? List.length issues)%nat, issues,
       Qmin (0 + snd t1 + snd t2 + snd t3 + snd t4 + snd t5 + snd t6) 1).
Proof.
  unfold analyze_clause; simpl.
  destruct (term_check "Ambiguous terms: " _ _ _),
           (term_check "Vague quantifiers: " _ _ _),
           (term_check "Complex conditionals: " _ _ _),
           (specifics_check _ _), (negation_check _), (length_check _).
  reflexivity.
Qed.

Lemma flag_of_coherent (issues : list string) (total total' : Q) :
  coherent_check (issues, total) -> total' == total ->
  ((0 <? List.length issues)%nat = true <-> 0 < Qmin total' 1)
  /\ ((0 <? List.length issues)%nat = true <-> issues <> []).
Proof.
  intros C Es.
  assert (Hlen : (0 <? List.length issues)%nat = true <-> issues <> []).
  { rewrite Nat.ltb_lt. destruct issues; cbn [List.length]; split; intros H;
      try lia; try discriminate; congruence. }
  split; [| exact Hlen].
  rewrite Hlen, Es. destruct C as [[En Ez] | [Nn Pz]]; cbn [fst snd] in *.
  - split; [congruence |]. intros H. exfalso.
    revert H. apply Qle_not_lt.
    eapply Qle_trans; [apply Q.le_min_l | rewrite Ez; apply Qle_refl].
  - split; [| intros _; assumption]. intros _.
    apply Q.min_glb_lt; [assumption | reflexivity].
Qed.

Lemma analyze_clause_coherent (c : Clause) :
  exists total,
    coherent_check (snd (fst (analyze_clause c)), total)
    /\ fst (fst (analyze_clause c))
       = (0 <? List.length (snd (fst (analyze_clause c))))%nat
    /\ snd (analyze_clause c) == Qmin total 1.
Proof.
  unfold analyze_clause.
  pose proof (term_check_coherent "Ambiguous terms: " AMBIGUOUS_TERMS
                (15 # 100) (lower (clause_text c)) eq_refl) as C1.
  pose proof (term_check_coherent "Vague quantifiers: " VAGUE_QUANTIFIERS
                (1 # 10) (lower (clause_text c)) eq_refl) as C2.
  pose proof (term_check_coherent "Complex conditionals: "
                COMPLEX_CONDITIONALS (12 # 100) (lower (clause_text c))
                eq_refl) as C3.
  pose proof (specifics_check_coherent c (lower (clause_text c))) as C4.
  pose proof (negation_check_coherent (lower (clause_text c))) as C5.
  pose proof (length_check_coherent c) as C6.
  destruct (term_check "Ambiguous terms: " _ _ _) as [i1 s1],
           (term_check "Vague quantifiers: " _ _ _) as [i2 s2],
           (term_check "Complex conditionals: " _ _ _) as [i3 s3],
           (specifics_check _ _) as [i4 s4], (negation_check _) as [i5 s5],
           (length_check _) as [i6 s6].
  pose proof (coherent_app _ _ C1
                (coherent_app _ _ C2
                   (coherent_app _ _ C3
                      (coherent_app _ _ C4 (coherent_app _ _ C5 C6)))))
    as C.
  cbn [fst snd] in *.
  eexists. split; [exact C |]. split; [reflexivity |].
  apply Q.min_compat; [ring | reflexivity].
Qed.

(** X13: [analyze_clause] flags a clause as ambiguous exactly when its
    ambiguity score is positive, and it lists an issue exactly then. *)
Theorem has_ambiguity_iff_positive_score (c : Clause) :
  let '(has_ambiguity, issues, score) := analyze_clause c in
  (has_ambiguity = true <-> 0 < score)
  /\ (has_ambiguity = true <-> issues <> []).
Proof.
  destruct (analyze_clause_coherent c) as (total & C & Eh & Es).
  destruct (analyze_clause c) as [[has_ambiguity issues] score].
  cbn [fst snd] in *. subst has_ambiguity.
  destruct (flag_of_coherent issues total total C (Qeq_refl _)) as (H1 & H2).
  split; [| exact H2]. now rewrite Es.
Qed.

(** X14: for a fixed clause the risk level never decreases when the
    ambiguity score grows. *)
Theorem assess_risk_level_mono (c : Clause) (score1 score2 : Q) :
  score1 <= score2 ->
  (RiskLevel_rank (assess_risk_level c score1)
   <= RiskLevel_rank (assess_risk_level c score2))%nat.
Proof.
  intros H. unfold assess_risk_level.
  destruct (str_in _ risk_critical_types); [| destruct (str_in _ _)];
    repeat match goal with
           | |- context [Qgtb score1 ?t] =>
               let A := fresh "A" in
               destruct (Qgtb score1 t) eqn:A;
               [rewrite (Qgtb_mono _ _ _ H A) |]
           end;
    repeat match goal with
           | |- context [Qgtb score2 ?t] => destruct (Qgtb score2 t)
           end;
    simpl; lia.
Qed.

Lemma assess_risk_level_mono_witness :
  (RiskLevel_rank (assess_risk_level Examples.efforts_clause (15 # 100))
   <= RiskLevel_rank (assess_risk_level Examples.efforts_clause (75 # 100)))%nat.
Proof.
  apply (assess_risk_level_mono Examples.efforts_clause (15 # 100) (75 # 100)).
  discriminate.
Defined.

(** X15: CRITICAL is only given to a clause of one of the five critical
    types whose score exceeds 0.6, and a score of at most 0.15 gives LOW
    whatever the clause type. *)
Theorem assess_risk_level_limits (c : Clause) (score : Q) :
  (assess_risk_level c score = CRITICAL ->
   str_in (ClauseType_value (clause_type c)) risk_critical_types = true
   /\ 6 # 10 < score)
  /\ (score <= 15 # 100 -> assess_risk_level c score = LOW).
Proof.
  unfold assess_risk_level. split.
  - destruct (str_in _ risk_critical_types).
    + destruct (Qgtb score (6 # 10)) eqn:A.
      * intros _. split; [reflexivity | now apply Qgtb_true].
      * clear A. destruct (Qgtb _ _); [| destruct (Qgtb _ _)];
          cbn; intros E; discriminate E.
    + destruct (str_in _ _);
        (destruct (Qgtb _ _); [| destruct (Qgtb _ _)]);
        cbn; intros E; discriminate E.
  - intros H.
    assert (G : forall t, 15 # 100 <= t -> Qgtb score t = false).
    { intros t Ht. apply Qgtb_false. eapply Qle_trans; eauto. }
    rewrite (G (6 # 10)), (G (3 # 10)), (G (15 # 100)), (G (7 # 10)),
            (G (4 # 10)), (G (8 # 10)), (G (5 # 10)) by discriminate.
    destruct (str_in _ _); [| destruct (str_in _ _)]; reflexivity.
Qed.

End RiskFacts.

(** ** Clause drafts *)

Module SegmentationFacts.
Import PyStr PyStrFacts ClauseIdentifier ClauseExtractor ClauseExtractorFacts.

Lemma join_nonempty (sep s : string) (rest : list string) :
  s <> "" -> join sep (s :: rest) <> "".
Proof.
  intros H. unfold join; simpl. destruct rest as [| r rest]; [assumption |].
  destruct s; [contradiction | discriminate].
Qed.

Lemma flush_well_formed (current_clause : list string) (n : nat)
    (info : option string) :
  current_clause <> [] -> Forall (fun s => s <> "") current_clause ->
  well_formed_draft info (flush current_clause n info)
  /\ cd_clause_number (flush current_clause n info) = n.
Proof.
  intros Hne Hall. unfold well_formed_draft, flush; simpl.
  repeat split.
  destruct current_clause as [| s rest]; [contradiction |].
  apply join_nonempty. now inversion Hall.
Qed.

(** The state of the segmentation loop: the drafts made so far are
    numbered 1, 2, ... and the next number is one more than their count. *)
Lemma split_loop_inv (sentences : list string) (info : option string)
    (clauses : list clause_dict) (current_clause : list string) (n : nat) :
  map cd_clause_number clauses = seq 1 (List.length clauses) ->
  n = S (List.length clauses) ->
  Forall (well_formed_draft info) clauses ->
  Forall (fun s => s <> "") current_clause ->
  let '(clauses', current', n') :=
    split_loop sentences info clauses current_clause n in
  map cd_clause_number clauses' = seq 1 (List.length clauses')
  /\ n' = S (List.length clauses')
  /\ Forall (well_formed_draft info) clauses'
  /\ Forall (fun s => s <> "") current'.
Proof.
  revert clauses current_clause n.
  induction sentences as [| sentence rest IH];
    intros clauses current_clause n Hnum Hn Hwf Hcur; simpl; [tauto |].
  destruct (strip sentence) as [| c0 s0] eqn:Es; [now apply IH |].
  assert (Hs : String c0 s0 <> "") by discriminate.
  destruct (starts_new_clause (String c0 s0)).
  - destruct current_clause as [| x xs] eqn:Ec.
    + apply IH; auto.
    + destruct (flush_well_formed (x :: xs) n info) as (Hf & Hfn);
        [discriminate | assumption |].
      apply IH.
      * rewrite map_app, length_app. cbn [map List.length].
        rewrite Nat.add_1_r, seq_S, Hnum, Hfn, Hn. reflexivity.
      * rewrite length_app; simpl. lia.
      * apply Forall_app. split; [assumption | now constructor].
      * now constructor.
  - apply IH; auto. apply Forall_app. split; [assumption | now constructor].
Qed.

Lemma split_into_clauses_drafts
    (text : string) (section_info : option string) :
  let drafts := split_into_clauses text section_info in
  map cd_clause_number drafts = seq 1 (List.length drafts)
  /\ Forall (well_formed_draft section_info) drafts.
Proof.
  unfold split_into_clauses.
  pose proof (split_loop_inv (split_sentences text) section_info [] [] 1
                eq_refl eq_refl (Forall_nil _) (Forall_nil _)) as H.
  destruct (split_loop (split_sentences text) section_info [] [] 1)
    as [[clauses current] n].
  destruct H as (Hnum & Hn & Hwf & Hcur).
  destruct current as [| x xs]; [tauto |].
  destruct (flush_well_formed (x :: xs) n section_info) as (Hf & Hfn);
    [discriminate | assumption |].
  cbv zeta. split.
  - rewrite map_app, length_app. cbn [map List.length].
    rewrite Nat.add_1_r, seq_S, Hnum, Hfn, Hn. reflexivity.
  - apply Forall_app. split; [assumption | now constructor].
Qed.

(** X16: the drafts returned by [split_into_clauses] are numbered
    1, 2, ..., n in order, carry the section number of [section_info],
    have a non-empty text and the type estimated from that text. *)
Theorem split_into_clauses_well_formed
    (text : string) (section_info : option string) :
  let drafts := split_into_clauses text section_info in
  map cd_clause_number drafts = seq 1 (List.length drafts)
  /\ Forall (well_formed_draft section_info) drafts.
Proof. apply split_into_clauses_drafts. Qed.

(** X17: the estimated type is always one of the five names known to
    [_map_clause_type], so mapping it to the enumeration and reading the
    value back returns the same name (the GENERAL default is never reached
    by an unknown name). *)
Theorem estimated_type_round_trip (text : string) :
  ClauseType_value (_map_clause_type (_estimate_clause_type text))
    = _estimate_clause_type text
  /\ In (_estimate_clause_type text)
        ["EXCLUSION"; "OBLIGATION"; "LIABILITY"; "TERMINATION"; "GENERAL"].
Proof.
  unfold _estimate_clause_type.
  destruct (any_in EXCLUSION_KEYWORDS _); [split; [reflexivity | simpl; tauto] |].
  destruct (any_in OBLIGATION_KEYWORDS _); [split; [reflexivity | simpl; tauto] |].
  destruct (any_in LIABILITY_KEYWORDS _); [split; [reflexivity | simpl; tauto] |].
  destruct (any_in TERMINATION_KEYWORDS _); split; try reflexivity; simpl; tauto.
Qed.

(** *** Sections without enumerators, blank sections *)

Lemma split_loop_plain (sentences : list string) (info : option string)
    (current_clause : list string) (n : nat) :
  Forall (fun s => starts_new_clause (strip s) = false) sentences ->
  split_loop sentences info [] current_clause n
    = ([],
       (current_clause
        ++ filter (fun s => negb (String.eqb s "")) (map strip sentences))%list,
       n).
Proof.
  revert current_clause; induction sentences as [| s rest IH];
    intros current_clause H; simpl.
  - now rewrite app_nil_r.
  - inversion H as [| ? ? Hs Hrest]; subst.
    destruct (strip s) as [| c0 s0] eqn:Es; simpl.
    + now apply IH.
    + rewrite Hs, IH by assumption. now rewrite <- app_assoc.
Qed.

(** X18: when no sentence of the section starts with an enumerator, the
    section gives a single draft, numbered 1, whose text is the non-blank
    sentences joined by single spaces, and no draft when every sentence is
    blank. *)
Theorem split_into_clauses_plain (text : string) (section_info : option string) :
  Forall (fun s => starts_new_clause (strip s) = false)
         (split_sentences text) ->
  split_into_clauses text section_info
    = match kept_sentences text with
      | [] => []
      | sentences => [flush sentences 1 section_info]
      end.
Proof.
  intros H. unfold split_into_clauses, kept_sentences.
  rewrite (split_loop_plain _ section_info [] 1 H). simpl.
  destruct (filter _ _); reflexivity.
Qed.

Lemma split_into_clauses_plain_witness :
  split_into_clauses "The fee is due. Payment follows; Notice is given." None
    = match kept_sentences
              "The fee is due. Payment follows; Notice is given." with
      | [] => []
      | sentences => [flush sentences 1 None]
      end.
Proof.
  apply (split_into_clauses_plain
           "The fee is due. Payment follows; Notice is given." None).
  assert (H : forallb (fun s => negb (starts_new_clause (strip s)))
                (split_sentences
                   "The fee is due. Payment follows; Notice is given.")
              = true) by (vm_compute; reflexivity).
  rewrite forallb_forall in H. apply Forall_forall. intros s Hs.
  apply negb_true_iff. now apply H.
Defined.

End SegmentationFacts.

(** ** Answers *)

Module AnswerFacts.
Import PyStr PyStrFacts QuestionAnsweringSystem RetrievalFacts
       ClauseExtractorFacts Examples.

Lemma findall_tokens_chars (s cur : string) :
  all_chars is_token_char cur = true ->
  Forall (fun t => t <> "" /\ all_chars is_token_char t = true)
         (findall_tokens s cur).
Proof.
  assert (R : forall cur, cur <> "" -> rev_string cur <> "").
  { intros [| c cur'] H; [contradiction |].
    rewrite rev_string_cons. destruct (rev_string cur'); discriminate. }
  revert cur; induction s as [| c s IH]; intros cur H; simpl.
  - destruct cur as [| a cur'] eqn:E; constructor; [| constructor].
    rewrite <- E in *. split; [apply R; congruence | now rewrite all_chars_rev].
  - destruct (is_token_char c) eqn:T.
    + apply IH. simpl. now rewrite T.
    + destruct cur as [| a cur'] eqn:E; [now apply IH |].
      constructor; [| now apply IH].
      rewrite <- E in *. split; [apply R; congruence | now rewrite all_chars_rev].
Qed.

(** X19: every token produced by [_tokenize] is non-empty and made only of
    lower-case letters and digits. *)
Theorem tokenize_tokens (text : string) :
  Forall (fun t => t <> "" /\ all_chars is_token_char t = true)
         (_tokenize text).
Proof. unfold _tokenize. now apply findall_tokens_chars. Qed.

Section Answering.
Variable encode : string -> option (list R).
Variable set_iteration : list string -> list string.

(** X20: with a non-zero contract id, every evidence clause is built from
    a stored clause of that contract: retrieval never returns a clause of
    another contract. *)
Theorem retrieve_evidence_scope (s : Session) (question : string)
    (cid top_k : Z) (e : EvidenceClause) :
  cid <> 0%Z ->
  In e (_retrieve_evidence encode s question (Some cid) top_k) ->
  exists clause,
    In clause (db_clauses s)
    /\ clause_contract_id clause = cid
    /\ ev_clause_id e = clause_id clause
    /\ ev_text e = clause_text clause
    /\ ev_clause_type e = ClauseType_value (clause_type clause).
Proof.
  intros Hc H. apply retrieve_evidence_In in H.
  destruct H as (clause & Hin & ->).
  unfold candidate_clauses in Hin.
  apply Z.eqb_neq in Hc. rewrite Hc in Hin.
  apply filter_In in Hin. destruct Hin as (Hin & E).
  apply Z.eqb_eq in E. exists clause. simpl. tauto.
Qed.

Lemma generate_answer_confidence (question : string) (e : EvidenceClause)
    (others : list EvidenceClause) :
  snd (_generate_answer set_iteration question (e :: others))
    = ev_relevance_score e.
Proof. reflexivity. Qed.

Lemma answer_question_found (s : Session) (question : string)
    (cid : option Z) (top_k : Z) (asked_by : string) (e : EvidenceClause)
    (others : list EvidenceClause) :
  _retrieve_evidence encode s question cid top_k = e :: others ->
  let evidence := e :: others in
  let answer := fst (_generate_answer set_iteration question evidence) in
  let ambiguities := _detect_ambiguities evidence in
  let conflicts := _check_evidence_conflicts s evidence in
  answer_question encode set_iteration s question cid top_k asked_by
    = (_save_qa encode s question answer (ev_relevance_score e) evidence
                asked_by cid,
       mk_AnswerResponse answer (ev_relevance_score e) evidence ambiguities
         conflicts (_needs_review evidence conflicts ambiguities)).
Proof.
  intros E. unfold answer_question. rewrite E. cbv zeta.
  pose proof (generate_answer_confidence question e others) as C.
  destruct (_generate_answer set_iteration question (e :: others))
    as [answer confidence].
  cbn [fst snd] in *. subst confidence. reflexivity.
Qed.

Lemma answer_question_none (s : Session) (question : string)
    (cid : option Z) (top_k : Z) (asked_by : string) :
  _retrieve_evidence encode s question cid top_k = [] ->
  answer_question encode set_iteration s question cid top_k asked_by
    = (s, mk_AnswerResponse no_answer_text 0%R [] [] [] false).
Proof. intros E. unfold answer_question. now rewrite E. Qed.

(** X21: when at least one evidence clause is asked for and there is a
    candidate, the confidence of the answer is the largest similarity
    between the question and any candidate clause. *)
Theorem answer_confidence_is_best (s : Session) (question : string)
    (cid : option Z) (top_k : Z) (asked_by : string) :
  (1 <= top_k)%Z ->
  candidate_clauses s cid <> [] ->
  let r := snd (answer_question encode set_iteration s question cid top_k
                                asked_by) in
  (exists clause,
      In clause (candidate_clauses s cid)
      /\ confidence r = clause_similarity question (encode question) clause)
  /\ (forall clause,
         In clause (candidate_clauses s cid) ->
         (clause_similarity question (encode question) clause
          <= confidence r)%R).
Proof.
  intros Hk Hne.
  set (scored := clause_scores encode question (candidate_clauses s cid)).
  pose proof (sort_desc_perm snd scored) as P.
  pose proof (sort_desc_descending snd scored) as D.
  pose proof (retrieve_evidence_nonneg encode s question cid top_k) as E.
  fold scored in E.
  destruct (sort_desc snd scored) as [| x rest] eqn:Es.
  - exfalso. apply Permutation_length in P. subst scored.
    unfold clause_scores in P. rewrite length_map in P.
    destruct (candidate_clauses s cid); [contradiction | discriminate].
  - destruct (Z.to_nat top_k) as [| n] eqn:En; [lia |].
    assert (Ev : _retrieve_evidence encode s question cid top_k
                 = to_evidence s x :: map (to_evidence s) (firstn n rest))
      by (rewrite E by lia; reflexivity).
    intros r. subst r.
    rewrite (answer_question_found s question cid top_k asked_by
               (to_evidence s x) (map (to_evidence s) (firstn n rest)) Ev).
    cbn [snd confidence]. rewrite relevance_of_evidence.
    assert (Hx : forall cs, In cs scored <-> cs = x \/ In cs rest).
    { intros cs. split; intros H.
      - apply (Permutation_in _ (Permutation_sym P)) in H.
        destruct H; [left; congruence | now right].
      - apply (Permutation_in _ P). destruct H; [left; congruence | now right]. }
    apply StronglySorted_inv in D. destruct D as (_ & D).
    rewrite Forall_forall in D.
    split.
    + assert (Hin : In x scored) by (apply Hx; now left).
      unfold scored, clause_scores in Hin. apply in_map_iff in Hin.
      destruct Hin as (clause & <- & Hin). exists clause. split; [assumption |].
      reflexivity.
    + intros clause Hin.
      assert (Hs : In (clause, clause_similarity question (encode question)
                                                 clause) scored).
      { unfold scored, clause_scores. apply in_map_iff. now exists clause. }
      apply Hx in Hs. destruct Hs as [<- | Hs]; [simpl; lra |].
      apply (D _ Hs).
Qed.

(** X22: [answer_question] never changes the contract, clause and conflict
    tables; it returns the retrieved evidence unchanged and appends exactly
    one question-answer row, holding the returned answer, confidence and
    evidence ids, when evidence was found, and no row otherwise. *)
Theorem answer_question_log (s : Session) (question : string)
    (cid : option Z) (top_k : Z) (asked_by : string) :
  let '(s', r) :=
    answer_question encode set_iteration s question cid top_k asked_by in
  db_contracts s' = db_contracts s
  /\ db_clauses s' = db_clauses s
  /\ db_conflicts s' = db_conflicts s
  /\ evidence_clauses r = _retrieve_evidence encode s question cid top_k
  /\ db_question_answers s'
     = (db_question_answers s
        ++ match evidence_clauses r with
           | [] => []
           | evidence =>
               [mk_QuestionAnswer question (encode question) (answer r)
                  (confidence r)
                  (map (fun e => (ev_clause_id e, ev_relevance_score e))
                       evidence)
                  asked_by cid]
           end)%list.
Proof.
  destruct (_retrieve_evidence encode s question cid top_k)
    as [| e others] eqn:E.
  - rewrite (answer_question_none s question cid top_k asked_by E).
    cbn [evidence_clauses]. rewrite app_nil_r. tauto.
  - rewrite (answer_question_found s question cid top_k asked_by e others E).
    cbn. tauto.
Qed.


End Answering.

Lemma answer_confidence_is_best_witness :
  let r := snd (answer_question unit_model list_order opposite_session
                                "When is payment due?" None 5 "anonymous") in
  (exists clause,
      In clause (candidate_clauses opposite_session None)
      /\ confidence r
         = clause_similarity "When is payment due?"
                             (unit_model "When is payment due?") clause)
  /\ (forall clause,
         In clause (candidate_clauses opposite_session None) ->
         (clause_similarity "When is payment due?"
                            (unit_model "When is payment due?") clause
          <= confidence r)%R).
Proof.
  apply (answer_confidence_is_best unit_model list_order opposite_session
           "When is payment due?" None 5 "anonymous").
  - lia.
  - discriminate.
Defined.

Lemma retrieve_evidence_scope_witness :
  exists clause,
    In clause (db_clauses opposite_session)
    /\ clause_contract_id clause = 1%Z
    /\ ev_clause_id
         (to_evidence opposite_session
            (opposite_clause, _cosine_similarity [1%R] [(-1)%R]))
       = clause_id clause
    /\ ev_text
         (to_evidence opposite_session
            (opposite_clause, _cosine_similarity [1%R] [(-1)%R]))
       = clause_text clause
    /\ ev_clause_type
         (to_evidence opposite_session
            (opposite_clause, _cosine_similarity [1%R] [(-1)%R]))
       = ClauseType_value (clause_type clause).
Proof.
  apply (retrieve_evidence_scope unit_model opposite_session
           "When is payment due?" 1 5).
  - discriminate.
  - left; reflexivity.
Defined.

End AnswerFacts.

(** ** Type refinement and section headings *)

Module StructureFacts.
Import PyStr PyStrFacts ClauseExtractorFacts StructureAnalyzer Extraction.

(** X24: [_refine_clause_type] either replaces every provisional type by
    the same specific type (a keyword was found) or leaves every type as
    it is; so applying it twice is the same as applying it once. *)
Theorem refine_clause_type_idempotent (text : string) :
  ((exists r, In r [CONFIDENTIALITY; PAYMENT; INTELLECTUAL_PROPERTY; WARRANTY;
                    INDEMNIFICATION; FORCE_MAJEURE; DISPUTE_RESOLUTION;
                    AMENDMENT]
              /\ forall t, _refine_clause_type text t = r)
   \/ (forall t, _refine_clause_type text t = t))
  /\ (forall t, _refine_clause_type text (_refine_clause_type text t)
                = _refine_clause_type text t).
Proof.
  unfold _refine_clause_type.
  assert (G : forall groups r,
             first_refinement groups (lower text) = Some r ->
             In r (map snd groups)).
  { induction groups as [| [ks t] groups IH]; simpl; [discriminate |].
    intros r. destruct (any_in ks (lower text)).
    - intros [= <-]. now left.
    - intros H. right. now apply IH. }
  destruct (first_refinement refinements (lower text)) as [r |] eqn:E.
  - split; [| reflexivity]. left. exists r. split; [| reflexivity].
    apply (G refinements r E).
  - split; [right |]; reflexivity.
Qed.

(** *** Positions *)

Lemma identify_from_positions (i : nat) (lines : list string) :
  StronglySorted lt (map snd (identify_from i lines))
  /\ Forall (fun p => i <= p < i + List.length lines)%nat
            (map snd (identify_from i lines)).
Proof.
  revert i; induction lines as [| line rest IH]; intros i; simpl.
  - split; constructor.
  - destruct (IH (S i)) as (Hs & Hb).
    assert (Hb' : Forall (fun p => i <= p < i + S (List.length rest))%nat
                         (map snd (identify_from (S i) rest))).
    { eapply Forall_impl; [| exact Hb]. simpl. intros; lia. }
    destruct (section_of_line line) as [[num title] |]; simpl.
    + split.
      * constructor; [assumption |].
        eapply Forall_impl; [| exact Hb]. simpl. intros; lia.
      * constructor; [lia | assumption].
    + now split.
Qed.

(** X25: the sections found by [identify_sections] come in document
    order: their line positions are strictly increasing and each is the
    index of a line of the text. *)
Theorem identify_sections_positions (text : string) :
  StronglySorted lt (map snd (identify_sections text))
  /\ Forall (fun p => p < List.length (split_lines text))%nat
            (map snd (identify_sections text)).
Proof.
  unfold identify_sections.
  destruct (identify_from_positions 0 (split_lines text)) as (Hs & Hb).
  split; [assumption |].
  eapply Forall_impl; [| exact Hb]. simpl. intros; lia.
Qed.

(** *** Which lines are recorded *)

Lemma split_heading_first_char (c : ascii) (rest : string) :
  number_class c = false -> split_heading (String c rest) = None.
Proof.
  intros H. unfold split_heading; simpl. now rewrite H.
Qed.

Lemma keyword_heading_first_char (keyword line : string) (k : ascii)
    (keyword' : string) :
  keyword = String k keyword' ->
  keyword_heading keyword line = true ->
  exists rest, line = String k rest.
Proof.
  intros -> H. unfold keyword_heading in H.
  destruct line as [| c rest]; simpl in H; [discriminate |].
  destruct (Ascii.eqb k c) eqn:E; [| discriminate].
  apply Ascii.eqb_eq in E. subst. eauto.
Qed.

(** X26: a line is recorded as a section only if its first non-blank
    character belongs to the numbering class (digit, dot, parenthesis,
    lower-case letter, space or one of I, V, X); a line of the form
    "Article N" or "Section N", although it matches a heading pattern, is
    never recorded. *)
Theorem section_of_line_first_char (line : string) :
  (forall num title,
      section_of_line line = Some (num, title) ->
      exists c rest, strip line = String c rest /\ number_class c = true)
  /\ (keyword_heading "Article" (strip line) = true
      \/ keyword_heading "Section" (strip line) = true ->
      section_of_line line = None).
Proof.
  split.
  - intros num title H. unfold section_of_line in H.
    destruct (strip line) as [| c rest]; [discriminate |].
    exists c, rest. split; [reflexivity |].
    destruct (number_class c) eqn:E; [reflexivity |].
    rewrite (split_heading_first_char c rest E) in H.
    destruct (existsb _ _); discriminate.
  - intros H. unfold section_of_line.
    assert (F : exists c rest, strip line = String c rest
                               /\ number_class c = false).
    { destruct H as [H | H].
      - destruct (keyword_heading_first_char "Article" (strip line) "A"
                    "rticle" eq_refl H) as (rest & ->).
        exists "A"%char, rest. now split.
      - destruct (keyword_heading_first_char "Section" (strip line) "S"
                    "ection" eq_refl H) as (rest & ->).
        exists "S"%char, rest. now split. }
    destruct F as (c & rest & -> & E).
    rewrite (split_heading_first_char c rest E).
    now destruct (existsb _ _).
Qed.

Lemma section_of_line_first_char_witness :
  section_of_line "  Article 12 Termination" = None.
Proof.
  apply (proj2 (section_of_line_first_char "  Article 12 Termination")).
  left; reflexivity.
Defined.

End StructureFacts.

(** ** Section texts and extracted clauses *)

Module ExtractionFacts.
Import PyStr PyStrFacts ClauseIdentifier ClauseExtractor StructureAnalyzer
       Extraction StructureFacts.

(** *** Lines *)

Lemma split_lines_aux_nonempty (s cur : string) : split_lines_aux s cur <> [].
Proof.
  revert cur; induction s as [| c s IH]; intros cur; simpl; [discriminate |].
  destruct (Ascii.eqb c "010"%char); [discriminate | apply IH].
Qed.

Lemma join_cons (sep x : string) (l : list string) :
  l <> [] -> join sep (x :: l) = x ++ sep ++ join sep l.
Proof. destruct l; [contradiction | reflexivity]. Qed.

Lemma join_split_lines_aux (s cur : string) :
  join newline (split_lines_aux s cur) = rev_string cur ++ s.
Proof.
  revert cur; induction s as [| c s IH]; intros cur; simpl.
  - now rewrite append_nil_r.
  - destruct (Ascii.eqb c "010"%char) eqn:E.
    + apply Ascii.eqb_eq in E. subst c.
      rewrite join_cons by apply split_lines_aux_nonempty.
      rewrite IH. reflexivity.
    + rewrite IH, rev_string_cons, append_assoc. reflexivity.
Qed.

(** Splitting a text into lines and joining them again gives the text. *)
Lemma join_split_lines (text : string) :
  join newline (split_lines text) = text.
Proof. apply join_split_lines_aux. Qed.

(** *** The span of a section *)

Lemma find_indices_seen (post : list (string * string * nat))
    (i ci pos : nat) :
  Forall (fun p => pos < p)%nat (map snd post) ->
  find_indices i post pos (Some ci)
    = (Some ci, match post with [] => None | _ :: _ => Some i end).
Proof.
  destruct post as [| [[n t] p] post]; simpl; [reflexivity |].
  intros H. inversion H as [| ? ? Hp _]; subst.
  replace (p =? pos)%nat with false by (symmetry; apply Nat.eqb_neq; lia).
  replace (pos <? p)%nat with true by (symmetry; apply Nat.ltb_lt; lia).
  reflexivity.
Qed.

Lemma find_indices_sorted (pre post : list (string * string * nat))
    (num title : string) (pos i : nat) :
  Forall (fun p => p < pos)%nat (map snd pre) ->
  Forall (fun p => pos < p)%nat (map snd post) ->
  find_indices i (pre ++ (num, title, pos) :: post) pos None
    = (Some (i + List.length pre)%nat,
       match post with
       | [] => None
       | _ :: _ => Some (S (i + List.length pre))
       end).
Proof.
  revert i; induction pre as [| [[n t] p] pre IH]; intros i Hpre Hpost; simpl.
  - rewrite Nat.eqb_refl, Nat.add_0_r. now apply find_indices_seen.
  - inversion Hpre as [| ? ? Hp Hrest]; subst.
    replace (p =? pos)%nat with false by (symmetry; apply Nat.eqb_neq; lia).
    rewrite (IH (S i) Hrest Hpost).
    now replace (S i + List.length pre)%nat with (i + S (List.length pre))%nat
      by lia.
Qed.

Lemma sorted_split (pre post : list (string * string * nat))
    (sec : string * string * nat) :
  StronglySorted lt (map snd (pre ++ sec :: post)) ->
  Forall (fun p => p < snd sec)%nat (map snd pre)
  /\ Forall (fun p => snd sec < p)%nat (map snd post).
Proof.
  induction pre as [| x pre IH]; simpl; intros H.
  - apply StronglySorted_inv in H. destruct H as (_ & H). now split.
  - apply StronglySorted_inv in H. destruct H as (Hs & Hx).
    destruct (IH Hs) as (H1 & H2). split; [| assumption].
    constructor; [| assumption].
    rewrite Forall_forall in Hx. apply Hx.
    rewrite map_app. apply in_or_app. right. now left.
Qed.

Lemma position_at_app (pre post : list (string * string * nat))
    (k : nat) :
  position_at (pre ++ post) (List.length pre + k)
    = position_at post k.
Proof.
  unfold position_at. now rewrite app_nth2_plus.
Qed.

(** X27: for sections listed with strictly increasing positions, the text
    of a section is made of the lines from its heading line up to, and
    not including, the heading line of the next section, or up to the end
    of the text for the last section. *)
Theorem extract_section_text_span (full_text : string)
    (pre post : list (string * string * nat)) (num title : string)
    (pos : nat) :
  StronglySorted lt (map snd (pre ++ (num, title, pos) :: post)) ->
  _extract_section_text full_text pos (pre ++ (num, title, pos) :: post)
    = join newline
        (slice (split_lines full_text) pos
               (match post with
                | [] => List.length (split_lines full_text)
                | (_, _, next_pos) :: _ => next_pos
                end)).
Proof.
  intros H. apply sorted_split in H. destruct H as (Hpre & Hpost).
  simpl in Hpre, Hpost.
  unfold _extract_section_text.
  rewrite (find_indices_sorted pre post num title pos 0 Hpre Hpost).
  cbn [Nat.add].
  replace (position_at (pre ++ (num, title, pos) :: post) (List.length pre))
    with pos
    by (rewrite <- (Nat.add_0_r (List.length pre)), position_at_app;
        reflexivity).
  destruct post as [| [[n t] p] post]; [reflexivity |].
  replace (position_at (pre ++ (num, title, pos) :: (n, t, p) :: post)
                       (S (List.length pre)))
    with p
    by (rewrite <- (Nat.add_1_r (List.length pre)), position_at_app;
        reflexivity).
  reflexivity.
Qed.

Lemma extract_section_text_span_witness :
  _extract_section_text
    ("intro" ++ newline ++ "1. Fees" ++ newline ++ "due" ++ newline ++ "(a) x")
    1 [("1.", "Fees", 1%nat); ("(a) x", "", 3%nat)]
  = join newline
      (slice (split_lines ("intro" ++ newline ++ "1. Fees" ++ newline
                             ++ "due" ++ newline ++ "(a) x"))
             1 3).
Proof.
  apply (extract_section_text_span
           ("intro" ++ newline ++ "1. Fees" ++ newline ++ "due" ++ newline
              ++ "(a) x")
           [] [("(a) x", "", 3%nat)] "1." "Fees" 1).
  repeat constructor.
Defined.

(** X28: a page on which no heading is found is one section whose text is
    the whole page. *)
Theorem page_without_headings (page_text : string) :
  identify_sections page_text = [] ->
  map (fun section =>
         _extract_section_text page_text (snd section)
                               (page_sections page_text))
      (page_sections page_text)
    = [page_text].
Proof.
  intros H. unfold page_sections. rewrite H. cbn [map snd].
  unfold _extract_section_text; cbn.
  unfold slice. rewrite Nat.sub_0_r, firstn_all.
  now rewrite join_split_lines.
Qed.

Lemma page_without_headings_witness :
  map (fun section =>
         _extract_section_text "No headings here. Just text." (snd section)
           (page_sections "No headings here. Just text."))
      (page_sections "No headings here. Just text.")
    = ["No headings here. Just text."].
Proof.
  apply (page_without_headings "No headings here. Just text.").
  reflexivity.
Defined.

End ExtractionFacts.

(** ** The extraction pipeline *)

Module PipelineFacts.
Import PyStr PyStrFacts ClauseIdentifier ClauseExtractor StructureAnalyzer
       Extraction SegmentationFacts.

Lemma create_clause_created (contract : Contract) (info : option string)
    (d : clause_dict) (num title : string) (page : Z) (pos : nat) :
  well_formed_draft info d ->
  created_for contract (_create_clause contract d num title page pos).
Proof.
  intros (_ & Hne & Ety). unfold created_for, _create_clause; simpl.
  rewrite Ety. repeat split. exact Hne.
Qed.

Lemma add_clause_dicts_collected (contract : Contract) (info : option string)
    (num title : string) (page : Z) (dicts : list clause_dict)
    (acc : list NewClause * nat) :
  Forall (well_formed_draft info) dicts ->
  collected contract acc ->
  collected contract (add_clause_dicts contract num title page dicts acc).
Proof.
  unfold add_clause_dicts.
  revert acc; induction dicts as [| d dicts IH]; intros acc Hd Hacc; simpl;
    [assumption |].
  inversion Hd as [| ? ? Hd1 Hrest]; subst.
  apply IH; [assumption |].
  destruct acc as [all_clauses clause_position].
  destruct Hacc as (Hpos & Hseq & Hall). cbn [fst snd] in *.
  unfold collected; cbn [fst snd].
  rewrite length_app, map_app. cbn [List.length map].
  rewrite Nat.add_1_r, seq_S, Hseq, Hpos. cbn [Nat.add].
  repeat split.
  apply Forall_app. split; [assumption |]. constructor; [| constructor].
  now apply (create_clause_created contract info).
Qed.

Lemma add_section_collected (contract : Contract) (page_num : Z)
    (page_text : string) (sections : list (string * string * nat))
    (acc : list NewClause * nat) (section : string * string * nat) :
  collected contract acc ->
  collected contract
            (add_section contract page_num page_text sections acc section).
Proof.
  intros H. destruct section as [[num title] position]. unfold add_section.
  apply (add_clause_dicts_collected contract (Some num)); [| assumption].
  apply split_into_clauses_drafts.
Qed.

Lemma add_page_collected (contract : Contract) (acc : list NewClause * nat)
    (page : Z * string) :
  collected contract acc -> collected contract (add_page contract acc page).
Proof.
  destruct page as [page_num page_text]. unfold add_page.
  generalize (page_sections page_text) at 2 as todo.
  intros todo; revert acc; induction todo as [| sec todo IH]; intros acc H;
    simpl; [assumption |].
  apply IH. now apply add_section_collected.
Qed.

Lemma collect_clauses_collected (contract : Contract)
    (pages : list (Z * string)) :
  collected contract (fold_left (add_page contract) pages ([], 0%nat)).
Proof.
  assert (G : forall acc, collected contract acc ->
                          collected contract
                                    (fold_left (add_page contract) pages acc)).
  { induction pages as [| page pages IH]; intros acc H; simpl; [assumption |].
    apply IH. now apply add_page_collected. }
  apply G. unfold collected; simpl. repeat split. constructor.
Qed.

(** What [_enhance_clauses] leaves as it is. *)
Lemma enhance_zip_fields (clauses : list NewClause)
    (embeddings : list (option (list R))) :
  map nc_position_in_document (enhance_zip clauses embeddings)
    = map nc_position_in_document clauses
  /\ map nc_contract_id (enhance_zip clauses embeddings)
     = map nc_contract_id clauses
  /\ map nc_text (enhance_zip clauses embeddings) = map nc_text clauses
  /\ map nc_normalized_text (enhance_zip clauses embeddings)
     = map nc_normalized_text clauses.
Proof.
  revert embeddings; induction clauses as [| c cs IH]; intros [| e es]; simpl;
    try (repeat split; reflexivity).
  destruct (IH es) as (H1 & H2 & H3 & H4).
  now rewrite H1, H2, H3, H4.
Qed.

Lemma enhance_zip_no_model (clauses : list NewClause) :
  enhance_zip clauses (repeat None (List.length clauses))
    = map (fun c => enhance c None) clauses.
Proof.
  induction clauses as [| c cs IH]; simpl; [reflexivity | now rewrite IH].
Qed.

Lemma rows_from_fields (i : Z) (cs : list NewClause) :
  List.length (rows_from i cs) = List.length cs
  /\ map clause_contract_id (rows_from i cs) = map nc_contract_id cs
  /\ map clause_text (rows_from i cs) = map nc_text cs
  /\ map clause_type (rows_from i cs) = map nc_clause_type cs
  /\ map clause_embedding_vector (rows_from i cs) = map nc_embedding_vector cs.
Proof.
  revert i; induction cs as [| c cs IH]; intros i; simpl;
    [repeat split; reflexivity |].
  destruct (IH (i + 1)%Z) as (H0 & H1 & H2 & H3 & H4).
  now rewrite H0, H1, H2, H3, H4.
Qed.

Lemma Forall_of_maps (contract : Contract) (l l' : list NewClause) :
  map nc_contract_id l' = map nc_contract_id l ->
  map nc_text l' = map nc_text l ->
  map nc_normalized_text l' = map nc_normalized_text l ->
  Forall (created_for contract) l ->
  Forall (fun c => nc_contract_id c = contract_id contract
                   /\ nc_text c <> ""
                   /\ nc_normalized_text c = _normalize_text (nc_text c)) l'.
Proof.
  revert l'; induction l as [| c l IH]; intros [| c' l'] E1 E2 E3 H;
    try discriminate; [constructor |].
  simpl in E1, E2, E3. injection E1 as E1 E1'. injection E2 as E2 E2'.
  injection E3 as E3 E3'.
  inversion H as [| ? ? (Hc & Hn & Hne & _) Hrest]; subst.
  constructor; [| now apply IH].
  rewrite E1, E2, E3. tauto.
Qed.

Section Extract.
Variable encode_batch : list string -> option (list (list R)).

(** X29: the clauses returned by [extract_from_contract] carry the
    positions 0, 1, 2, ... in order, belong to the contract, have a
    non-empty text and the normalisation of that text; one row per clause
    is appended to the clause table, in the same order and with the same
    contract, text, type and vector, and no other table changes. *)
Theorem extract_from_contract_clauses (s : Session) (contract : Contract)
    (pages : list (Z * string)) :
  let '(s', clauses) := extract_from_contract encode_batch s contract pages in
  map nc_position_in_document clauses = seq 0 (List.length clauses)
  /\ Forall (fun c => nc_contract_id c = contract_id contract
                      /\ nc_text c <> ""
                      /\ nc_normalized_text c = _normalize_text (nc_text c))
            clauses
  /\ (exists rows,
         db_clauses s' = (db_clauses s ++ rows)%list
         /\ List.length rows = List.length clauses
         /\ map clause_contract_id rows = map nc_contract_id clauses
         /\ map clause_text rows = map nc_text clauses
         /\ map clause_type rows = map nc_clause_type clauses
         /\ map clause_embedding_vector rows = map nc_embedding_vector clauses)
  /\ db_contracts s' = db_contracts s
  /\ db_conflicts s' = db_conflicts s
  /\ db_question_answers s' = db_question_answers s.
Proof.
  unfold extract_from_contract, collect_clauses, _enhance_clauses.
  pose proof (collect_clauses_collected contract pages) as H.
  destruct (fold_left (add_page contract) pages ([], 0%nat))
    as [made position].
  destruct H as (_ & Hseq & Hall). cbn [fst snd] in *.
  set (embeddings := match encode_batch (map nc_text made) with
                     | Some vectors => map Some vectors
                     | None => repeat None (List.length made)
                     end).
  destruct (enhance_zip_fields made embeddings) as (E0 & E1 & E2 & E3).
  split; [| split; [| split]].
  - rewrite E0, Hseq.
    now rewrite <- (length_map nc_position_in_document (enhance_zip _ _)),
                E0, length_map.
  - now apply (Forall_of_maps contract made).
  - eexists. split; [reflexivity |]. apply rows_from_fields.
  - repeat split.
Qed.

(** X30: without an embedding model every extracted clause is stored
    without a vector, and its type is the keyword refinement of the type
    estimated by the segmentation. *)
Theorem extract_without_model (s : Session) (contract : Contract)
    (pages : list (Z * string)) :
  (forall texts, encode_batch texts = None) ->
  Forall (fun c =>
            nc_embedding_vector c = None
            /\ nc_clause_type c
               = _refine_clause_type
                   (nc_text c)
                   (_map_clause_type (_estimate_clause_type (nc_text c))))
         (snd (extract_from_contract encode_batch s contract pages)).
Proof.
  intros N.
  unfold extract_from_contract, collect_clauses, _enhance_clauses.
  cbn [snd]. rewrite N, enhance_zip_no_model.
  pose proof (collect_clauses_collected contract pages) as H.
  destruct (fold_left (add_page contract) pages ([], 0%nat))
    as [made position].
  destruct H as (_ & _ & Hall). cbn [fst snd] in *.
  induction Hall as [| c l (_ & _ & _ & Hty & _) _ IH]; simpl; constructor;
    [| exact IH].
  simpl. now rewrite Hty.
Qed.

End Extract.

Lemma extract_without_model_witness :
  Forall (fun c =>
            nc_embedding_vector c = None
            /\ nc_clause_type c
               = _refine_clause_type
                   (nc_text c)
                   (_map_clause_type (_estimate_clause_type (nc_text c))))
         (snd (extract_from_contract (fun _ => None) Examples.empty_session
                 Samples.supply_contract
                 [(1%Z, "All fees are due. (a) Party shall pay.")])).
Proof.
  apply (extract_without_model (fun _ => None) Examples.empty_session
           Samples.supply_contract
           [(1%Z, "All fees are due. (a) Party shall pay.")]).
  reflexivity.
Defined.

End PipelineFacts.
